(** * A cache simulator replaying a matrix-multiplication trace

    Shallow embedding of [cache.py]: the abstract [Cache] class with its
    statistics buffers, the three organisations [DirectCache],
    [FullyAssociativeCache] and [SetAssociativeCache], the displacement
    strategies and the trace driver [algo].

    Modelling conventions.
    - Python integers are unbounded: they are [Z].  The program is Python 2,
      so [/] on integers is floor division and [%] takes the sign of the
      divisor; both agree with [Z.div] and [Z.modulo], except that a zero
      divisor raises [ZeroDivisionError].
    - Objects are mutated in place and an exception leaves the object as it
      was at the raising statement.  Methods are therefore computations in a
      state-and-exception monad whose two outcomes both carry the state.
    - A dictionary is a [gmap Z Z]; a Python list is a [list], indexed the
      way Python does it (negative indices count from the end, anything
      else out of range raises [IndexError]).
    - A statistics log file is modelled by its contents, the list of the
      integers written so far ([None] while the file does not exist); the
      decimal text encoding of each sample and I/O failures are left out,
      and the two temporary file names of one cache are taken as distinct.
    - A Python float is a binary64 number, a mantissa times a power of two:
      [float(z)] and the float division round to nearest, ties to even, and
      an integer too large for a double raises [OverflowError]. *)

From Stdlib Require Import ZArith QArith Qpower Lia.
From Stdlib Require Import Floats.SpecFloat.
From stdpp Require Import gmap list sorting.

Close Scope Q_scope.
Open Scope Z_scope.

(** ** Exceptions and the method monad *)

Inductive exn :=
  ZeroDivisionError | KeyError | IndexError | IOError | OverflowError.

Inductive outcome (S A : Type) :=
| Ret (a : A) (s : S)
| Raise (e : exn) (s : S).
Arguments Ret {S A} a s.
Arguments Raise {S A} e s.

Definition state_of {S A} (o : outcome S A) : S :=
  match o with Ret _ s => s | Raise _ s => s end.

Definition M (S A : Type) : Type := S -> outcome S A.

Definition ret {S A} (a : A) : M S A := fun s => Ret a s.

Definition bind {S A B} (m : M S A) (k : A -> M S B) : M S B :=
  fun s => match m s with
           | Ret a s' => k a s'
           | Raise e s' => Raise e s'
           end.

Definition raise {S A} (e : exn) : M S A := fun s => Raise e s.
Definition gets {S A} (f : S -> A) : M S A := fun s => Ret (f s) s.
Definition modify {S} (f : S -> S) : M S unit := fun s => Ret tt (f s).

Definition from_option {S A} (e : exn) (o : option A) : M S A :=
  match o with Some a => ret a | None => raise e end.

(** Run a method of a component object (an attribute of [self]) and store
    the mutated component back, also when the method raises. *)
Definition zoom {S S' A} (rd : S -> S') (wr : S' -> S -> S) (m : M S' A) : M S A :=
  fun s => match m (rd s) with
           | Ret a s' => Ret a (wr s' s)
           | Raise e s' => Raise e (wr s' s)
           end.

Declare Scope method_scope.
Delimit Scope method_scope with method.
Notation "x <- m ;; k" := (bind m (fun x => k))
  (at level 100, m at next level, right associativity) : method_scope.
Notation "m ;; k" := (bind m (fun _ => k))
  (at level 100, right associativity) : method_scope.
Open Scope method_scope.

(** [for x in xs: body(x)] *)
Fixpoint for_each {S A} (body : A -> M S unit) (xs : list A) : M S unit :=
  match xs with
  | [] => ret tt
  | x :: xs' => body x ;; for_each body xs'
  end.

(** ** Python primitives *)

Definition floordiv {S} (a b : Z) : M S Z :=
  if decide (b = 0) then raise ZeroDivisionError else ret (a / b).

Definition pymod {S} (a b : Z) : M S Z :=
  if decide (b = 0) then raise ZeroDivisionError else ret (a mod b).

(** [xrange(n)]: empty when [n <= 0]. *)
Definition xrange (n : Z) : list Z := seqZ 0 n.

(** The position a Python list of length [len] accesses for index [i]. *)
Definition list_index (len : nat) (i : Z) : option nat :=
  if decide (0 <= i < Z.of_nat len) then Some (Z.to_nat i)
  else if decide (- Z.of_nat len <= i < 0) then Some (Z.to_nat (Z.of_nat len + i))
  else None.

Definition getitem {A} (l : list A) (i : Z) : option A :=
  match list_index (length l) i with
  | Some n => l !! n
  | None => None
  end.

Definition setitem {A} (l : list A) (i : Z) (x : A) : option (list A) :=
  match list_index (length l) i with
  | Some n => Some (<[n := x]> l)
  | None => None
  end.

(** ** Python floats

    A Python float is an IEEE 754 binary64 number.  The finite ones are
    modelled by a mantissa and an exponent, standing for
    [mantissa * 2^exponent]; the pair is not normalised, the value is what
    counts, and the sign of a zero is not kept.  Conversions and divisions
    round to nearest, ties to even, to 53 significant bits, with the
    exponent of the last place not below -1074. *)

Record double := mk_double { mantissa : Z; exponent : Z }.

Definition double_value (d : double) : Q :=
  (inject_Z (mantissa d) * 2 ^ exponent d)%Q.

(** The integer nearest to [a / b], the even one of two equally near;
    [b] is positive. *)
Definition div_half_even (a b : Z) : Z :=
  let q := a / b in
  let r := a mod b in
  match 2 * r ?= b with
  | Lt => q
  | Gt => q + 1
  | Eq => if Z.even q then q else q + 1
  end.

(** The exponent [e] with [2^e <= a / b < 2^(e+1)], for positive [a], [b]. *)
Definition binade (a b : Z) : Z :=
  let e := Z.log2 a - Z.log2 b in
  if decide (b * 2 ^ Z.max 0 e <= a * 2 ^ Z.max 0 (- e)) then e else e - 1.

(** [a / b] rounded to a double, for [0 <= a] and [0 < b]. *)
Definition round_ratio (a b : Z) : double :=
  if decide (a = 0) then mk_double 0 0
  else
    let u := Z.max (binade a b - 52) (-1074) in
    mk_double (div_half_even (a * 2 ^ Z.max 0 (- u)) (b * 2 ^ Z.max 0 u)) u.

(** [a / b] rounded to a double, for [0 < b]. *)
Definition round_signed (a b : Z) : double :=
  if decide (a < 0) then
    let d := round_ratio (- a) b in mk_double (- mantissa d) (exponent d)
  else round_ratio a b.

(** [float(z)]: [None] stands for the [OverflowError] of an integer too
    large for a double. *)
Definition float_of_int (z : Z) : option double :=
  let d := round_signed z 1 in
  if decide (2 ^ 1024 <= Z.abs (mantissa d) * 2 ^ exponent d) then None else Some d.

(** [x / y] for a non-zero [y]; used with the double of a non-zero integer
    as divisor, where the quotient cannot overflow. *)
Definition float_div (x y : double) : double :=
  let a := mantissa x * 2 ^ Z.max 0 (exponent x - exponent y) in
  let b := mantissa y * 2 ^ Z.max 0 (exponent y - exponent x) in
  if decide (b < 0) then round_signed (- a) (- b) else round_signed a b.


(** A finite float of the Standard Library's specification of IEEE 754
    ([SpecFloat]), read as a double, and the comparison of two doubles by
    value: they serve to check the rounding above against that
    specification. *)
Definition double_of_spec (f : spec_float) : option double :=
  match f with
  | S754_zero _ => Some (mk_double 0 0)
  | S754_finite s m e => Some (mk_double (if s then Z.neg m else Z.pos m) e)
  | _ => None
  end.

Definition same_value (x y : double) : bool :=
  let lo := Z.min (exponent x) (exponent y) in
  (mantissa x * 2 ^ (exponent x - lo) =? mantissa y * 2 ^ (exponent y - lo)).

Definition agrees_with_spec (m r : Z) : bool :=
  match float_of_int m, float_of_int r with
  | Some x, Some y =>
      match double_of_spec (binary_normalize 53 1024 m 0 false),
            double_of_spec (binary_normalize 53 1024 r 0 false),
            double_of_spec (SFdiv 53 1024 (binary_normalize 53 1024 m 0 false)
                                  (binary_normalize 53 1024 r 0 false)) with
      | Some x', Some y', Some q =>
          same_value x x' && same_value y y' && same_value (float_div x y) q
      | _, _, _ => false
      end
  | _, _ => false
  end.

(** The least magnitude [float] refuses: halfway between the largest
    double and [2^1024]. *)
Definition float_overflow : Z := 2 ^ 1024 - 2 ^ 970.

(** ** Memory and Matrix *)

Module Memory.
Record t := mk { base : Z }.

Definition __init__ : t := {| base := 0 |}.

Definition allocate (size_t n : Z) : M t Z :=
    fun self =>
      let self' := {| base := base self + size_t * n |} in
      Ret (base self' - size_t * n) self'.
End Memory.

Module Matrix.
Record t := mk { base : Z; size_t : Z }.

Definition __init__ (size_t n : Z) : M Memory.t t :=
    b <- Memory.allocate size_t (n * n) ;;
    ret {| base := b; size_t := size_t |}.

Definition get_addr (self : t) (position : Z) : Z :=
    base self + size_t self * position.
End Matrix.

(** ** The abstract class [Cache] *)

Module Cache.

Record t := mk {
    line_size : Z;
    size : Z;
    blocks : Z;
    hits : Z;
    requests : Z;
    in_cache_file : option (list Z);
    in_cache_len : Z;
    in_cache_history : list Z;
    not_in_cache_file : option (list Z);
    not_in_cache_len : Z;
    not_in_cache_history : list Z;
    history : gmap Z Z
  }.

Definition set_hits (v : Z) (c : t) : t :=
    mk (line_size c) (size c) (blocks c) v (requests c)
       (in_cache_file c) (in_cache_len c) (in_cache_history c)
       (not_in_cache_file c) (not_in_cache_len c) (not_in_cache_history c)
       (history c).

Definition set_requests (v : Z) (c : t) : t :=
    mk (line_size c) (size c) (blocks c) (hits c) v
       (in_cache_file c) (in_cache_len c) (in_cache_history c)
       (not_in_cache_file c) (not_in_cache_len c) (not_in_cache_history c)
       (history c).

Definition set_history (v : gmap Z Z) (c : t) : t :=
    mk (line_size c) (size c) (blocks c) (hits c) (requests c)
       (in_cache_file c) (in_cache_len c) (in_cache_history c)
       (not_in_cache_file c) (not_in_cache_len c) (not_in_cache_history c)
       v.

  (** The three attributes of the hit stream, set together. *)
Definition set_in_cache (f : option (list Z)) (n : Z) (h : list Z) (c : t) : t :=
    mk (line_size c) (size c) (blocks c) (hits c) (requests c)
       f n h
       (not_in_cache_file c) (not_in_cache_len c) (not_in_cache_history c)
       (history c).

  (** The three attributes of the miss stream, set together. *)
Definition set_not_in_cache (f : option (list Z)) (n : Z) (h : list Z) (c : t) : t :=
    mk (line_size c) (size c) (blocks c) (hits c) (requests c)
       (in_cache_file c) (in_cache_len c) (in_cache_history c)
       f n h
       (history c).

  (** [Cache.__init__] up to the call of [_post_init]: the only failure is
      the division [size / line_size]. *)
Definition __init__ (line_size size : Z) : exn + t :=
    if decide (line_size = 0) then inl ZeroDivisionError
    else inr {| line_size := line_size; size := size;
                blocks := size / line_size;
                hits := 0; requests := 0;
                in_cache_file := None; in_cache_len := 0; in_cache_history := [];
                not_in_cache_file := None; not_in_cache_len := 0;
                not_in_cache_history := [];
                history := ∅ |}.

  (** [flush]: the file is opened for appending (which creates it), the
      buffer is written out and then emptied. *)
Definition flush (in_cache : bool) : M t unit :=
    fun self =>
      if in_cache then
        Ret tt (set_in_cache
                  (Some (default [] (in_cache_file self) ++ in_cache_history self))
                  0 [] self)
      else
        Ret tt (set_not_in_cache
                  (Some (default [] (not_in_cache_file self) ++ not_in_cache_history self))
                  0 [] self).

Definition add_miss_stat (in_cache : bool) (val : Z) : M t unit :=
    (if in_cache then
       modify (fun self => set_in_cache (in_cache_file self) (in_cache_len self + 1)
                                        (in_cache_history self) self)
     else
       modify (fun self => set_not_in_cache (not_in_cache_file self)
                                            (not_in_cache_len self + 1)
                                            (not_in_cache_history self) self)) ;;
    (if in_cache then
       modify (fun self => set_in_cache (in_cache_file self) (in_cache_len self)
                                        (in_cache_history self ++ [val]) self)
     else
       modify (fun self => set_not_in_cache (not_in_cache_file self)
                                            (not_in_cache_len self)
                                            (not_in_cache_history self ++ [val]) self)) ;;
    n <- gets (fun self => if in_cache then in_cache_len self else not_in_cache_len self) ;;
    if decide (n > 10000) then flush in_cache else ret tt.

  (** The dictionary returned by [get_hit_stat]. *)
Record hit_stat := mk_hit_stat {
    stat_requests : Z;
    stat_hits : Z;
    stat_misses : Z;
    stat_miss_chance : double
  }.

  (** [misses * 1.0] converts [misses] to a float (the product with [1.0]
      is exact); the division then converts [requests], raises
      [ZeroDivisionError] when that float is zero, and divides. *)
Definition get_hit_stat : M t hit_stat :=
    fun self =>
      let misses := requests self - hits self in
      match float_of_int misses with
      | None => Raise OverflowError self
      | Some m =>
          match float_of_int (requests self) with
          | None => Raise OverflowError self
          | Some r =>
              if decide (mantissa r = 0) then Raise ZeroDivisionError self
              else Ret {| stat_requests := requests self;
                          stat_hits := hits self;
                          stat_misses := misses;
                          stat_miss_chance := float_div m r |}
                       self
          end
      end.

  (** [Counter.update] over the samples of a log, and [sorted(c.items())]. *)
Definition counter_update (c : gmap Z Z) (samples : list Z) : gmap Z Z :=
    foldl (fun m x => <[x := default 0 (m !! x) + 1]> m) c samples.

Definition item_le (p q : Z * Z) : Prop :=
    p.1 < q.1 \/ (p.1 = q.1 /\ p.2 <= q.2).

Global Instance item_le_dec p q : Decision (item_le p q).
Proof. unfold item_le. apply _. Defined.

Definition sorted_items (c : gmap Z Z) : list (Z * Z) :=
    merge_sort item_le (map_to_list c).

Record extended_stat := mk_extended_stat {
    stat_in_cache : list (Z * Z);
    stat_not_in_cache : list (Z * Z)
  }.

Definition get_extended_stat : M t extended_stat :=
    hit_log <- (fun self => from_option IOError (in_cache_file self) self) ;;
    let in_cache := counter_update ∅ hit_log in
    miss_log <- (fun self => from_option IOError (not_in_cache_file self) self) ;;
    let not_in_cache := counter_update ∅ miss_log in
    ret {| stat_in_cache := sorted_items in_cache;
           stat_not_in_cache := sorted_items not_in_cache |}.

  (** The sum of all counts of both streams of an extended statistic. *)
Definition count_sum (items : list (Z * Z)) : Z :=
    foldr (fun p acc => p.2 + acc) 0 items.

Definition total_samples (s : extended_stat) : Z :=
    count_sum (stat_in_cache s) + count_sum (stat_not_in_cache s).

  (** A sample stream: what was flushed to the log, then the buffer. *)
Definition hit_stream (c : t) : list Z :=
    default [] (in_cache_file c) ++ in_cache_history c.
Definition miss_stream (c : t) : list Z :=
    default [] (not_in_cache_file c) ++ not_in_cache_history c.

  (** What [get] does to the attributes of the base class once
      [_in_cache] has answered. *)
Definition bookkeeping (verdict : bool) (line_number : Z) : M t bool :=
    modify (fun self => set_requests (requests self + 1) self) ;;
    (if verdict then
       modify (fun self => set_hits (hits self + 1) self) ;;
       r <- gets requests ;;
       h <- (fun self => from_option KeyError (history self !! line_number) self) ;;
       add_miss_stat true (r - h)
     else
       seen <- gets (fun self => history self !! line_number) ;;
       r <- gets requests ;;
       let not_in_cache_for := match seen with None => -1 | Some h => r - h end in
       modify (fun self => set_history (<[line_number := requests self]> (history self)) self) ;;
       add_miss_stat false not_in_cache_for) ;;
    ret verdict.

  (** The base attributes as [Cache.__init__] leaves them: nothing counted,
    nothing buffered, no log written. *)
Definition fresh (c : t) : Prop :=
  hits c = 0 /\ requests c = 0
  /\ in_cache_file c = None /\ in_cache_history c = []
  /\ not_in_cache_file c = None /\ not_in_cache_history c = [].

(** A cache organisation: a subclass of [Cache], that is a state holding
      the attributes of the base class, with its own [_in_cache]. *)
Class Organisation (T : Type) := {
    base : T -> t;
    set_base : t -> T -> T;
    _in_cache : Z -> M T bool
  }.

Section Get.
Context {T : Type} `{Organisation T}.

    (** A method of the base class run on an object of the subclass. *)
Definition inherited {A} (m : M t A) : M T A := zoom base set_base m.

Definition get (addr : Z) : M T bool :=
      ls <- gets (fun self => line_size (base self)) ;;
      line_number <- floordiv addr ls ;;
      verdict <- _in_cache line_number ;;
      inherited (modify (fun self => set_requests (requests self + 1) self)) ;;
      (if verdict : bool then
         inherited (modify (fun self => set_hits (hits self + 1) self)) ;;
         r <- gets (fun self => requests (base self)) ;;
         h <- (fun self => from_option KeyError (history (base self) !! line_number) self) ;;
         inherited (add_miss_stat true (r - h))
       else
         seen <- gets (fun self => history (base self) !! line_number) ;;
         r <- gets (fun self => requests (base self)) ;;
         let not_in_cache_for :=
           match seen with None => -1 | Some h => r - h end in
         inherited (modify (fun self =>
                              set_history (<[line_number := requests self]> (history self)) self)) ;;
         inherited (add_miss_stat false not_in_cache_for)) ;;
      ret verdict.

    (** The object after a sequence of [get] calls; a call that raises
        leaves the object as it was when the exception left [get]. *)
Definition run (trace : list Z) (self : T) : T :=
      foldl (fun s addr => state_of (get addr s)) self trace.
End Get.

  (** What the three organisations share.  [valid] is the part of the
      object set up by the constructor that no method changes; the base
      attributes are read back as written; [_in_cache] touches no attribute
      of the base class but [history], where on a miss it leaves the entry
      of the incoming line alone. *)
Class Lawful (T : Type) `{Organisation T} := {
    valid : T -> Prop;
    base_set_base : forall b s, base (set_base b s) = b;
    set_base_set_base : forall b b' s, set_base b (set_base b' s) = set_base b s;
    valid_set_base : forall b s,
      valid s -> line_size b = line_size (base s) -> valid (set_base b s);
    valid_in_cache : forall line_number s,
      valid s -> valid (state_of (_in_cache line_number s));
    in_cache_frame : forall line_number s,
      base (state_of (_in_cache line_number s))
      = set_history (history (base (state_of (_in_cache line_number s)))) (base s);
    in_cache_miss_history : forall line_number s s',
      valid s ->
      _in_cache line_number s = Ret false s' ->
      history (base s') !! line_number = history (base s) !! line_number
  }.

End Cache.

(** ** DirectCache *)

Module DirectCache.

Record t := mk { super : Cache.t; cache : list Z }.

Definition set_super (c : Cache.t) (self : t) : t := mk c (cache self).
Definition set_cache (l : list Z) (self : t) : t := mk (super self) l.

Definition _post_init (self : Cache.t) : t :=
    let cache := (fun _ => -1) <$> xrange (Cache.blocks self) in
    {| super := Cache.set_history (<[-1 := 0]> (Cache.history self)) self;
       cache := cache |}.

Definition __init__ (line_size size : Z) : exn + t :=
    match Cache.__init__ line_size size with
    | inl e => inl e
    | inr self => inr (_post_init self)
    end.

Definition _in_cache (line_number : Z) : M t bool :=
    blocks <- gets (fun self => Cache.blocks (super self)) ;;
    slot_number <- pymod line_number blocks ;;
    v <- (fun self => from_option IndexError (getitem (cache self) slot_number) self) ;;
    if decide (v = line_number) then ret true
    else
      modify (fun self =>
                set_super (Cache.set_history
                             (<[v := Cache.requests (super self)]> (Cache.history (super self)))
                             (super self)) self) ;;
      (fun self => match setitem (cache self) slot_number line_number with
                   | Some l => Ret tt (set_cache l self)
                   | None => Raise IndexError self
                   end) ;;
      ret false.

Global Instance organisation : Cache.Organisation t :=
    {| Cache.base := super; Cache.set_base := set_super; Cache._in_cache := _in_cache |}.

(** The shape of the slot array: as many slots as [blocks] (none when
    [blocks] is negative), each resident value in its own slot and known to
    [history]. *)
Definition slots_ok (s : t) : Prop :=
  Cache.line_size (super s) <> 0
  /\ length (cache s) = Z.to_nat (Cache.blocks (super s))
  /\ (forall n v, cache s !! n = Some v ->
        v = -1 \/ v mod Cache.blocks (super s) = Z.of_nat n)
  /\ (forall n v, cache s !! n = Some v -> is_Some (Cache.history (super s) !! v)).

(** The line resides in its slot. *)
Definition resident (line_number : Z) (s : t) : Prop :=
  cache s !! Z.to_nat (line_number mod Cache.blocks (super s)) = Some line_number.

End DirectCache.

(** ** Displacement strategies

    A strategy receives the resident mapping (line number to timestamp) and
    returns the line to evict; [None] stands for the [IndexError] both
    strategies raise on an empty mapping.  The iteration order of a Python 2
    dictionary and the outcome of [random.choice] are not fixed by the
    program: they are variables of the model. *)

Definition displacement : Type := gmap Z Z -> option Z.

Section Displacement.
Variable iteritems : gmap Z Z -> list (Z * Z).
Variable choice : list Z -> option Z.

  (** [sorted(items, key=itemgetter(1))]: a stable sort on the timestamp. *)
Fixpoint insert_by_value (x : Z * Z) (l : list (Z * Z)) : list (Z * Z) :=
    match l with
    | [] => [x]
    | y :: l' => if decide (x.2 <= y.2) then x :: y :: l' else y :: insert_by_value x l'
    end.

Definition sorted_by_value (l : list (Z * Z)) : list (Z * Z) :=
    foldr insert_by_value [] l.

Definition oldest_displacement : displacement :=
    fun cache => fst <$> head (sorted_by_value (iteritems cache)).

Definition random_displacement : displacement :=
    fun cache => choice (fst <$> iteritems cache).
End Displacement.

(** ** FullyAssociativeCache *)

Module FullyAssociativeCache.

Record t := mk {
    super : Cache.t;
    displacement_strategy : displacement;
    cache : gmap Z Z;
    used_size : Z;
    last_replaced : Z
  }.

Definition set_super (c : Cache.t) (self : t) : t :=
    mk c (displacement_strategy self) (cache self) (used_size self) (last_replaced self).
Definition set_cache (m : gmap Z Z) (self : t) : t :=
    mk (super self) (displacement_strategy self) m (used_size self) (last_replaced self).
Definition set_used_size (n : Z) (self : t) : t :=
    mk (super self) (displacement_strategy self) (cache self) n (last_replaced self).
Definition set_last_replaced (l : Z) (self : t) : t :=
    mk (super self) (displacement_strategy self) (cache self) (used_size self) l.

Definition _post_init (displacement_strategy : displacement) (self : Cache.t) : t :=
    {| super := self;
       displacement_strategy := displacement_strategy;
       cache := ∅;
       used_size := 0;
       last_replaced := -1 |}.

Definition __init__ (line_size size : Z) (displacement_strategy : displacement)
    : exn + t :=
    match Cache.__init__ line_size size with
    | inl e => inl e
    | inr self => inr (_post_init displacement_strategy self)
    end.

Definition _in_cache (line_number : Z) : M t bool :=
    resident <- gets (fun self => cache self !! line_number) ;;
    if decide (is_Some resident) then ret true
    else
      used <- gets used_size ;;
      blocks <- gets (fun self => Cache.blocks (super self)) ;;
      (if decide (used < blocks) then
         modify (fun self => set_used_size (used_size self + 1) self) ;;
         modify (set_last_replaced (-1))
       else
         to_be_replaced <-
           (fun self => from_option IndexError (displacement_strategy self (cache self)) self) ;;
         modify (fun self =>
                   set_super (Cache.set_history
                                (<[to_be_replaced := Cache.requests (super self) + 1]>
                                   (Cache.history (super self)))
                                (super self)) self) ;;
         modify (set_last_replaced to_be_replaced) ;;
         (fun self => match cache self !! to_be_replaced with
                      | Some _ => Ret tt (set_cache (delete to_be_replaced (cache self)) self)
                      | None => Raise KeyError self
                      end)) ;;
      modify (fun self =>
                set_cache (<[line_number := Cache.requests (super self) + 1]> (cache self)) self) ;;
      ret false.

Global Instance organisation : Cache.Organisation t :=
    {| Cache.base := super; Cache.set_base := set_super; Cache._in_cache := _in_cache |}.

(** The resident mapping after inserting [lines] one per request, the
    request counter standing at [r] before the first. *)
Fixpoint fill (r : Z) (lines : list Z) (m : gmap Z Z) : gmap Z Z :=
  match lines with
  | [] => m
  | l :: lines' => fill (r + 1) lines' (<[l := r + 1]> m)
  end.

End FullyAssociativeCache.

(** ** SetAssociativeCache *)

Module SetAssociativeCache.

Record t := mk {
    super : Cache.t;
    sets_block_size : Z;
    cache : list FullyAssociativeCache.t;
    sets_amount : Z
  }.

Definition set_super (c : Cache.t) (self : t) : t :=
    mk c (sets_block_size self) (cache self) (sets_amount self).
Definition set_cache (l : list FullyAssociativeCache.t) (self : t) : t :=
    mk (super self) (sets_block_size self) l (sets_amount self).

  (** [[ctor for _ in xs]]: one constructor call per element. *)
Fixpoint comprehension {A B} (ctor : exn + B) (xs : list A) : exn + list B :=
    match xs with
    | [] => inr []
    | _ :: xs' =>
        match ctor with
        | inl e => inl e
        | inr b => match comprehension ctor xs' with
                   | inl e => inl e
                   | inr bs => inr (b :: bs)
                   end
        end
    end.

Definition _post_init (displacement_strategy : displacement) (sets_amount : Z)
             (self : Cache.t) : exn + t :=
    if decide (sets_amount = 0) then inl ZeroDivisionError
    else
      let sets_block_size := Cache.size self / sets_amount in
      match comprehension
              (FullyAssociativeCache.__init__ (Cache.line_size self) sets_block_size
                                              displacement_strategy)
              (xrange sets_amount) with
      | inl e => inl e
      | inr cache => inr {| super := self;
                            sets_block_size := sets_block_size;
                            cache := cache;
                            sets_amount := sets_amount |}
      end.

Definition __init__ (line_size size : Z) (displacement_strategy : displacement)
             (sets_amount : Z) : exn + t :=
    match Cache.__init__ line_size size with
    | inl e => inl e
    | inr self => _post_init displacement_strategy sets_amount self
    end.

  (** A method call on [self.cache[set_number]]: the inner cache is an
      object of its own, mutated in place. *)
Definition at_set {A} (set_number : Z) (m : M FullyAssociativeCache.t A) : M t A :=
    fun self =>
      match list_index (length (cache self)) set_number with
      | None => Raise IndexError self
      | Some n =>
          match cache self !! n with
          | None => Raise IndexError self
          | Some inner =>
              match m inner with
              | Ret a inner' => Ret a (set_cache (<[n := inner']> (cache self)) self)
              | Raise e inner' => Raise e (set_cache (<[n := inner']> (cache self)) self)
              end
          end
      end.

Definition _in_cache (line_number : Z) : M t bool :=
    sbs <- gets sets_block_size ;;
    q <- floordiv line_number sbs ;;
    sa <- gets sets_amount ;;
    set_number <- pymod q sa ;;
    ls <- gets (fun self => Cache.line_size (super self)) ;;
    res <- at_set set_number (Cache.get (line_number * ls)) ;;
    lr <- at_set set_number (gets FullyAssociativeCache.last_replaced) ;;
    (if decide (lr <> -1) then
       modify (fun self =>
                 set_super (Cache.set_history
                              (<[lr := Cache.requests (super self) + 1]>
                                 (Cache.history (super self)))
                              (super self)) self)
     else ret tt) ;;
    ret res.

Global Instance organisation : Cache.Organisation t :=
    {| Cache.base := super; Cache.set_base := set_super; Cache._in_cache := _in_cache |}.

(** What the constructor sets up and no method changes. *)
Definition sets_ok (s : t) : Prop :=
  Cache.line_size (super s) <> 0
  /\ length (cache s) = Z.to_nat (sets_amount s)
  /\ forall n inner, cache s !! n = Some inner ->
       Cache.line_size (FullyAssociativeCache.super inner) = Cache.line_size (super s).

(** The position in [cache] of the set that owns the line of [addr], when
    the computation of the set number succeeds. *)
Definition owner (s : t) (addr : Z) : option nat :=
  if decide (Cache.line_size (super s) = 0) then None
  else if decide (sets_block_size s = 0) then None
  else if decide (sets_amount s = 0) then None
  else list_index (length (cache s))
                  ((addr / Cache.line_size (super s) / sets_block_size s)
                     mod sets_amount s).

End SetAssociativeCache.

(** ** The trace driver *)







(** ** Predicates used by the properties below *)

(** The sample buffers as [add_miss_stat] keeps them: each counter is the
    length of its buffer, and no buffer holds more than 10000 samples. *)
Definition buffers_ok (c : Cache.t) : Prop :=
  Cache.in_cache_len c = Z.of_nat (length (Cache.in_cache_history c))
  /\ Cache.in_cache_len c <= 10000
  /\ Cache.not_in_cache_len c = Z.of_nat (length (Cache.not_in_cache_history c))
  /\ Cache.not_in_cache_len c <= 10000.

(** A log that exists holds more than 10000 samples: only the automatic
    flush has written to it. *)
Definition logs_ok (c : Cache.t) : Prop :=
  (forall log, Cache.in_cache_file c = Some log -> 10000 < Z.of_nat (length log))
  /\ (forall log, Cache.not_in_cache_file c = Some log -> 10000 < Z.of_nat (length log)).

(** The base attributes right after [Cache.__init__], counters of the
    buffers included. *)
Definition new_cache (c : Cache.t) : Prop :=
  Cache.fresh c /\ Cache.in_cache_len c = 0 /\ Cache.not_in_cache_len c = 0.

(** How often a sample occurs in a log. *)
Definition occurrences (v : Z) (log : list Z) : Z :=
  Z.of_nat (length (filter (fun x => x = v) log)).

(** [items] is the histogram of [log]: strictly ascending in the sample
    value, one pair for each value that occurs, with the number of its
    occurrences. *)
Definition histogram_of (log : list Z) (items : list (Z * Z)) : Prop :=
  StronglySorted (fun p q : Z * Z => p.1 < q.1) items
  /\ forall v c, (v, c) ∈ items <-> 0 < c /\ c = occurrences v log.

(** No two consecutive elements are equal. *)
Fixpoint alternating (lines : list Z) : Prop :=
  match lines with
  | x :: (y :: _) as rest => x <> y /\ alternating rest
  | _ => True
  end.

(** A strategy that only ever names a resident line. *)
Definition chooses_resident (strategy : displacement) : Prop :=
  forall m v, strategy m = Some v -> is_Some (m !! v).

(** A strategy that finds a victim whenever a line is resident. *)
Definition finds_victim (strategy : displacement) : Prop :=
  forall m, m <> ∅ -> is_Some (strategy m).

(** What [get] keeps true of a fully associative cache: [used_size] counts
    the resident lines, never beyond [blocks], and every resident line has
    a [history] entry. *)
Definition assoc_ok (s : FullyAssociativeCache.t) : Prop :=
  Cache.line_size (FullyAssociativeCache.super s) <> 0
  /\ FullyAssociativeCache.used_size s
     = Z.of_nat (size (FullyAssociativeCache.cache s))
  /\ FullyAssociativeCache.used_size s
     <= Z.max 0 (Cache.blocks (FullyAssociativeCache.super s))
  /\ forall l, is_Some (FullyAssociativeCache.cache s !! l) ->
       is_Some (Cache.history (FullyAssociativeCache.super s) !! l).

(** ** Example objects *)

(** Example objects: 64-byte lines and 128 bytes, that is two blocks. *)
Definition example_base : Cache.t :=
  Cache.mk 64 128 2 0 0 None 0 [] None 0 [] ∅.

(** Three requests of which two hit, and a request counter beyond the
    range of a double. *)
Definition example_counts : Cache.t :=
  Cache.set_hits 2 (Cache.set_requests 3 example_base).

Definition example_huge : Cache.t :=
  Cache.set_requests (2 ^ 1024) example_base.

Definition example_direct : DirectCache.t := DirectCache._post_init example_base.

Definition example_oldest : displacement := oldest_displacement map_to_list.

Definition example_assoc : FullyAssociativeCache.t :=
  FullyAssociativeCache._post_init example_oldest example_base.

Definition example_full : FullyAssociativeCache.t := Cache.run [0; 64] example_assoc.

Definition example_sets : SetAssociativeCache.t :=
  match SetAssociativeCache.__init__ 64 256 example_oldest 2 with
  | inr s => s
  | inl _ => SetAssociativeCache.mk example_base 0 [] 0
  end.

(** The set-associative example after three lines of set 0, the third of
    which evicted line 0. *)
Definition example_sets_evicted : SetAssociativeCache.t :=
  Cache.run [0; 64; 128] example_sets.

(** A cache whose two logs hold a few samples. *)
Definition example_logged : Cache.t :=
  Cache.set_not_in_cache (Some [-1; -1; 3]) 0 []
    (Cache.set_in_cache (Some [2; 1; 2; 2]) 0 [] example_base).

(** The inner cache of set 0 of that example. *)
Definition example_inner : FullyAssociativeCache.t :=
  default example_assoc (SetAssociativeCache.cache example_sets_evicted !! 0%nat).

(** A fully associative cache of 32 bytes with 64-byte lines: no block. *)
Definition example_no_block : FullyAssociativeCache.t :=
  FullyAssociativeCache._post_init example_oldest
    (Cache.mk 64 32 0 0 0 None 0 [] None 0 [] ∅).

(** * Properties *)

(** ** The method monad *)




(** ** Python primitives *)

Lemma list_index_nonneg (len : nat) (i : Z) :
  0 <= i < Z.of_nat len -> list_index len i = Some (Z.to_nat i).
Proof. intros Hi. unfold list_index. rewrite decide_True by lia. reflexivity. Qed.

Lemma list_index_lt (len : nat) (i : Z) (n : nat) :
  list_index len i = Some n -> (n < len)%nat.
Proof.
  unfold list_index. repeat case_decide; intros [= <-]; lia.
Qed.

Lemma list_index_empty (i : Z) : list_index 0 i = None.
Proof. unfold list_index. repeat case_decide; try reflexivity; lia. Qed.

Lemma xrange_length (n : Z) : length (xrange n) = Z.to_nat n.
Proof. apply length_seqZ. Qed.

(** ** Python floats *)

Module FloatFacts.

Lemma div_half_even_le (a b k : Z) :
  0 < b -> a <= k * b -> div_half_even a b <= k.
Proof.
  intros Hb Ha. unfold div_half_even.
  pose proof (Z.div_mod a b ltac:(lia)) as Hdm.
  pose proof (Z.mod_pos_bound a b Hb) as Hr.
  assert (Hq : a / b <= k) by (apply Z.div_le_upper_bound; lia).
  destruct (Z.eq_dec (a / b) k) as [Hk|Hk].
  - assert (a mod b = 0) by nia.
    replace (2 * (a mod b) ?= b) with Lt by (symmetry; apply Z.compare_lt_iff; lia).
    lia.
  - destruct (2 * (a mod b) ?= b); [destruct (Z.even (a / b))| |]; lia.
Qed.

Lemma div_half_even_ge (a b k : Z) :
  0 < b -> k * b <= a -> k <= div_half_even a b.
Proof.
  intros Hb Ha. unfold div_half_even.
  assert (Hq : k <= a / b) by (apply Z.div_le_lower_bound; lia).
  destruct (2 * (a mod b) ?= b); [destruct (Z.even (a / b))| |]; lia.
Qed.


Lemma div_half_even_one (a : Z) : div_half_even a 1 = a.
Proof.
  unfold div_half_even. rewrite Z.div_1_r, Z.mod_1_r. reflexivity.
Qed.

Lemma binade_one (z : Z) : 0 < z -> binade z 1 = Z.log2 z.
Proof.
  intros Hz. unfold binade. change (Z.log2 1) with 0. rewrite Z.sub_0_r.
  pose proof (Z.log2_nonneg z) as He. pose proof (Z.log2_spec z Hz) as [Hl _].
  rewrite decide_True; [reflexivity|].
  rewrite Z.max_r by lia. rewrite Z.max_l by lia. simpl. lia.
Qed.


(** The double of a positive integer: its exponent and the range of its
    mantissa. *)
Lemma round_ratio_int (z : Z) :
  0 < z ->
  exists m, round_ratio z 1 = mk_double m (Z.log2 z - 52)
    /\ 2 ^ 52 <= m <= 2 ^ 53
    /\ m = div_half_even (z * 2 ^ Z.max 0 (52 - Z.log2 z))
                         (2 ^ Z.max 0 (Z.log2 z - 52)).
Proof.
  intros Hz. unfold round_ratio. rewrite decide_False by lia.
  rewrite binade_one by assumption.
  pose proof (Z.log2_nonneg z) as He.
  pose proof (Z.log2_spec z Hz) as [Hlo Hhi].
  remember (Z.log2 z) as e eqn:Ee. clear Ee.
  rewrite (Z.max_l (e - 52) (-1074)) by lia. rewrite Z.mul_1_l.
  replace (- (e - 52)) with (52 - e) by lia.
  eexists. split; [reflexivity|]. split; [|reflexivity].
  destruct (Z.le_gt_cases e 52) as [Hs|Hs].
  - rewrite (Z.max_r 0 (52 - e)) by lia. rewrite (Z.max_l 0 (e - 52)) by lia.
    simpl (2 ^ 0). rewrite div_half_even_one.
    assert (2 ^ 52 = 2 ^ e * 2 ^ (52 - e)) by (rewrite <- Z.pow_add_r by lia; f_equal; lia).
    assert (2 ^ 53 = 2 ^ Z.succ e * 2 ^ (52 - e))
      by (rewrite <- Z.pow_add_r by lia; f_equal; lia).
    assert (0 < 2 ^ (52 - e)) by (apply Z.pow_pos_nonneg; lia).
    nia.
  - rewrite (Z.max_l 0 (52 - e)) by lia. rewrite (Z.max_r 0 (e - 52)) by lia.
    simpl (2 ^ 0). rewrite Z.mul_1_r.
    assert (2 ^ e = 2 ^ 52 * 2 ^ (e - 52)) by (rewrite <- Z.pow_add_r by lia; f_equal; lia).
    assert (2 ^ Z.succ e = 2 ^ 53 * 2 ^ (e - 52))
      by (rewrite <- Z.pow_add_r by lia; f_equal; lia).
    assert (0 < 2 ^ (e - 52)) by (apply Z.pow_pos_nonneg; lia).
    split; [apply div_half_even_ge|apply div_half_even_le]; lia.
Qed.

Lemma div_half_even_ge_iff (a b c k : Z) :
  b = 2 * c -> 0 < c -> Z.even k = true ->
  k <= div_half_even a b <-> k * b - c <= a.
Proof.
  intros Hb Hc Hk.
  assert (Hb0 : 0 < b) by lia.
  pose proof (Z.div_mod a b ltac:(lia)) as Hdm.
  pose proof (Z.mod_pos_bound a b Hb0) as Hr.
  assert (Hodd : Z.even (k - 1) = false).
  { change (k - 1) with (Z.pred k). rewrite Z.even_pred, <- Z.negb_even, Hk. reflexivity. }
  unfold div_half_even.
  destruct (Z.lt_trichotomy (a / b) (k - 1)) as [Hq|[Hq|Hq]].
  - assert (a < (k - 1) * b) by nia.
    destruct (Z.compare_spec (2 * (a mod b)) b); [destruct (Z.even (a / b))| |]; split; lia.
  - rewrite Hq in *. rewrite Hodd.
    destruct (Z.compare_spec (2 * (a mod b)) b); split; nia.
  - assert (k * b <= a) by nia.
    destruct (Z.compare_spec (2 * (a mod b)) b); [destruct (Z.even (a / b))| |]; split; lia.
Qed.

Lemma float_of_int_pos (z : Z) :
  0 < z ->
  (float_of_int z = None <-> float_overflow <= z)
  /\ forall d, float_of_int z = Some d ->
       d = round_ratio z 1 /\ exponent d = Z.log2 z - 52
       /\ 2 ^ 52 <= mantissa d <= 2 ^ 53.
Proof.
  intros Hz. unfold float_of_int, round_signed.
  destruct (decide (z < 0)) as [Hneg|_]; [lia|].
  destruct (round_ratio_int z Hz) as (m & -> & Hm & Hdef). simpl.
  pose proof (Z.log2_nonneg z) as He.
  pose proof (Z.log2_spec z Hz) as [Hlo Hhi].
  remember (Z.log2 z) as e eqn:Ee. clear Ee.
  rewrite Z.abs_eq by lia.
  split; [|intros d; case_decide; [discriminate|]; intros [= <-]; auto].
  unfold float_overflow.
  destruct (Z.lt_trichotomy e 1023) as [Hs|[Hs|Hs]].
  - assert (Hp : 2 ^ Z.succ e <= 2 ^ 1023) by (apply Z.pow_le_mono_r; lia).
    assert (Hlt : m * 2 ^ (e - 52) < 2 ^ 1024).
    { destruct (Z.le_gt_cases 52 e) as [Hge|Hlt].
      - assert (2 ^ Z.succ e = 2 ^ 53 * 2 ^ (e - 52))
          by (rewrite <- Z.pow_add_r by lia; f_equal; lia).
        assert (0 < 2 ^ (e - 52)) by (apply Z.pow_pos_nonneg; lia).
        change (2 ^ 1024) with (2 * 2 ^ 1023). nia.
      - rewrite (Z.pow_neg_r 2 (e - 52)) by lia. rewrite Z.mul_0_r. reflexivity. }
    rewrite decide_False by lia. split; [discriminate|].
    change (2 ^ 1024) with (2 * 2 ^ 1023). change (2 ^ 1023) with (2 * (4 * 2 ^ 1020)) in *.
    change (2 ^ 970) with (2 ^ 970 * 1). intros Ht. exfalso.
    assert (2 ^ 970 < 2 ^ 1020) by reflexivity. lia.
  - subst e. change (1023 - 52) with 971 in *. change (Z.max 0 (52 - 1023)) with 0 in Hdef.
    change (Z.max 0 971) with 971 in Hdef. simpl (2 ^ 0) in Hdef. rewrite Z.mul_1_r in Hdef.
    pose proof (div_half_even_ge_iff z (2 ^ 971) (2 ^ 970) (2 ^ 53)
                  eq_refl eq_refl eq_refl) as Hiff.
    rewrite <- Hdef in Hiff.
    change (2 ^ 53 * 2 ^ 971) with (2 ^ 1024) in Hiff.
    assert (Hov : 2 ^ 1024 <= m * 2 ^ 971 <-> 2 ^ 53 <= m).
    { change (2 ^ 1024) with (2 ^ 53 * 2 ^ 971).
      assert (0 < 2 ^ 971) by reflexivity. split; nia. }
    case_decide as Hd; split; intros Hx; try reflexivity; try discriminate; tauto.
  - assert (Hp : 2 ^ 1024 <= 2 ^ e) by (apply Z.pow_le_mono_r; lia).
    assert (2 ^ e = 2 ^ 52 * 2 ^ (e - 52)) by (rewrite <- Z.pow_add_r by lia; f_equal; lia).
    assert (0 < 2 ^ (e - 52)) by (apply Z.pow_pos_nonneg; lia).
    rewrite decide_True by nia. split; [intros _|reflexivity].
    assert (0 < 2 ^ 970) by reflexivity. lia.
Qed.

Lemma float_of_int_zero : float_of_int 0 = Some (mk_double 0 0).
Proof. reflexivity. Qed.

Lemma float_of_int_opp (z : Z) :
  z < 0 ->
  float_of_int z
  = match float_of_int (- z) with
    | Some d => Some (mk_double (- mantissa d) (exponent d))
    | None => None
    end.
Proof.
  intros Hz. unfold float_of_int, round_signed.
  destruct (decide (z < 0)) as [_|Hn]; [|lia].
  destruct (decide (- z < 0)) as [Hn|_]; [lia|]. simpl.
  rewrite Z.abs_opp. case_decide; reflexivity.
Qed.

(** [float(z)] raises [OverflowError] exactly from [float_overflow] on. *)
Lemma float_of_int_None_iff (z : Z) :
  float_of_int z = None <-> float_overflow <= Z.abs z.
Proof.
  destruct (Z.lt_trichotomy z 0) as [Hz|[->|Hz]].
  - rewrite float_of_int_opp by assumption.
    destruct (float_of_int_pos (- z)) as [Hiff _]; [lia|].
    rewrite Z.abs_neq by lia. rewrite <- Hiff.
    destruct (float_of_int (- z)); split; congruence.
  - rewrite float_of_int_zero. split; [discriminate|].
    intros Ht. exfalso. revert Ht. apply Z.lt_nge. reflexivity.
  - destruct (float_of_int_pos z Hz) as [Hiff _]. rewrite Z.abs_eq by lia. exact Hiff.
Qed.




(** On sample operands, among them ties, 54-bit integers, the largest
    double and quotients in the subnormal range, conversion and division
    agree with [SpecFloat]; and so does the overflow of the conversion. *)
Lemma agrees_with_spec_samples :
  forallb (fun p : Z * Z => agrees_with_spec p.1 p.2)
          [(2, 3); (1, 3); (1, 10); (0, 5); (7, 7); (1, 28); (27, 28);
           (3, 2 ^ 60 + 1); (2 ^ 60 + 1, 2 ^ 61 + 3); (2 ^ 53 + 1, 2 ^ 53 + 3);
           (2 ^ 54 + 2, 2 ^ 54 + 6); (1, 2 ^ 1023); (1, 2 ^ 1023 + 2 ^ 1022);
           (1, 2 ^ 1024 - 2 ^ 971); (3, 2 ^ 1024 - 2 ^ 971);
           (123456789, 2 ^ 900 + 12345); (2 ^ 200 + 1, 2 ^ 200 + 2 ^ 148)]
  = true
  /\ float_of_int (float_overflow - 1) <> None
  /\ binary_normalize 53 1024 (float_overflow - 1) 0 false <> S754_infinity false
  /\ float_of_int float_overflow = None
  /\ binary_normalize 53 1024 float_overflow 0 false = S754_infinity false.
Proof.
  split; [vm_compute; reflexivity|].
  split; [vm_compute; discriminate|].
  split; [vm_compute; discriminate|].
  split; vm_compute; reflexivity.
Qed.

End FloatFacts.

(** ** The statistics of the base class *)

Module CacheFacts.
Import Cache.

Lemma add_miss_stat_ret (in_cache : bool) (val : Z) (c : t) :
    exists c', add_miss_stat in_cache val c = Ret tt c'
      /\ line_size c' = line_size c /\ size c' = size c /\ blocks c' = blocks c
      /\ hits c' = hits c /\ requests c' = requests c /\ history c' = history c
      /\ hit_stream c' = hit_stream c ++ (if in_cache then [val] else [])
      /\ miss_stream c' = miss_stream c ++ (if in_cache then [] else [val]).
Proof.
    unfold add_miss_stat, bind, modify, gets, flush, ret, hit_stream, miss_stream.
    destruct in_cache; simpl; case_decide; simpl; eexists; split; try reflexivity;
      simpl; rewrite ?app_nil_r, ?app_assoc; auto 10.
Qed.

Lemma bookkeeping_static (verdict : bool) (line_number : Z) (c : t) :
    let c' := state_of (bookkeeping verdict line_number c) in
    line_size c' = line_size c /\ size c' = size c /\ blocks c' = blocks c.
Proof.
    unfold bookkeeping, bind, modify, gets, ret, from_option, raise.
    destruct verdict; simpl.
    - destruct (history c !! line_number) as [h|]; simpl; [|auto].
      match goal with |- context [add_miss_stat ?b ?v ?x] =>
        destruct (add_miss_stat_ret b v x) as (c' & -> & ? & ? & ? & _) end.
      simpl in *. auto.
    - match goal with |- context [add_miss_stat ?b ?v ?x] =>
        destruct (add_miss_stat_ret b v x) as (c' & -> & ? & ? & ? & _) end.
      simpl in *. auto.
Qed.

Lemma bookkeeping_counts (verdict : bool) (line_number : Z) (c : t) :
    let c' := state_of (bookkeeping verdict line_number c) in
    0 <= hits c <= requests c -> 0 <= hits c' <= requests c'.
Proof.
    unfold bookkeeping, bind, modify, gets, ret, from_option, raise.
    destruct verdict; simpl.
    - destruct (history c !! line_number) as [h|]; simpl; [|lia].
      match goal with |- context [add_miss_stat ?b ?v ?x] =>
        destruct (add_miss_stat_ret b v x) as (c' & -> & _ & _ & _ & Hh & Hr & _) end.
      simpl in *. lia.
    - match goal with |- context [add_miss_stat ?b ?v ?x] =>
        destruct (add_miss_stat_ret b v x) as (c' & -> & _ & _ & _ & Hh & Hr & _) end.
      simpl in *. lia.
Qed.

Lemma bookkeeping_miss (line_number : Z) (c : t) :
    exists c', bookkeeping false line_number c = Ret false c'
      /\ requests c' = requests c + 1
      /\ hits c' = hits c
      /\ history c' = <[line_number := requests c + 1]> (history c)
      /\ hit_stream c' = hit_stream c
      /\ miss_stream c' = miss_stream c ++
           [match history c !! line_number with
            | None => -1
            | Some h => requests c + 1 - h
            end].
Proof.
    unfold bookkeeping, bind, modify, gets, ret. simpl.
    match goal with |- context [add_miss_stat ?b ?v ?x] =>
      destruct (add_miss_stat_ret b v x) as (c' & -> & _ & _ & _ & Hh & Hr & Hy & Hs & Hm) end.
    exists c'. simpl in *. rewrite app_nil_r in Hs. auto 10.
Qed.

Lemma bookkeeping_hit (line_number h : Z) (c : t) :
    history c !! line_number = Some h ->
    exists c', bookkeeping true line_number c = Ret true c'
      /\ requests c' = requests c + 1
      /\ hits c' = hits c + 1
      /\ history c' = history c
      /\ hit_stream c' = hit_stream c ++ [requests c + 1 - h]
      /\ miss_stream c' = miss_stream c.
Proof.
    intros Hl. unfold bookkeeping, bind, modify, gets, ret. simpl. rewrite Hl. simpl.
    match goal with |- context [add_miss_stat ?b ?v ?x] =>
      destruct (add_miss_stat_ret b v x) as (c' & -> & _ & _ & _ & Hh & Hr & Hy & Hs & Hm) end.
    exists c'. simpl in *. rewrite app_nil_r in Hm. auto 10.
Qed.

Lemma bookkeeping_ret (verdict v : bool) (line_number : Z) (c c' : t) :
    bookkeeping verdict line_number c = Ret v c' ->
    v = verdict /\ requests c' = requests c + 1
    /\ (length (hit_stream c') + length (miss_stream c')
        = S (length (hit_stream c) + length (miss_stream c)))%nat.
Proof.
    destruct verdict.
    - destruct (history c !! line_number) as [h|] eqn:Hl.
      + destruct (bookkeeping_hit line_number h c Hl) as (c1 & -> & Hr & _ & _ & Hs & Hm).
        intros [= <- <-]. rewrite Hs, Hm, length_app. simpl. repeat split; [assumption|lia].
      + unfold bookkeeping, bind, modify, gets, ret, from_option, raise. simpl.
        rewrite Hl. discriminate.
    - destruct (bookkeeping_miss line_number c) as (c1 & -> & Hr & _ & _ & Hs & Hm).
      intros [= <- <-]. rewrite Hs, Hm, length_app. simpl. repeat split; [assumption|lia].
Qed.

Lemma count_sum_perm (l1 l2 : list (Z * Z)) :
  l1 ≡ₚ l2 -> count_sum l1 = count_sum l2.
Proof.
  induction 1; simpl; lia.
Qed.

Lemma count_sum_counter_step (m : gmap Z Z) (x : Z) :
  count_sum (map_to_list (<[x := default 0 (m !! x) + 1]> m))
  = count_sum (map_to_list m) + 1.
Proof.
  destruct (m !! x) as [v|] eqn:Hx; simpl.
  - rewrite <- (insert_delete_eq m).
    rewrite (count_sum_perm _ _ (map_to_list_insert _ _ _ (lookup_delete_eq m x))).
    rewrite <- (count_sum_perm _ _ (map_to_list_delete _ _ _ Hx)).
    simpl. lia.
  - rewrite (count_sum_perm _ _ (map_to_list_insert _ _ _ Hx)). simpl. lia.
Qed.

Lemma count_sum_counter_update (m : gmap Z Z) (samples : list Z) :
  count_sum (map_to_list (counter_update m samples))
  = count_sum (map_to_list m) + Z.of_nat (length samples).
Proof.
  revert m. induction samples as [|x l IH]; intros m; simpl; [lia|].
  unfold counter_update in *. simpl. rewrite IH, count_sum_counter_step. lia.
Qed.

Lemma count_sum_sorted_items (samples : list Z) :
  count_sum (sorted_items (counter_update ∅ samples)) = Z.of_nat (length samples).
Proof.
  unfold sorted_items.
  rewrite (count_sum_perm _ _ (merge_sort_Permutation _ _)).
  rewrite count_sum_counter_update, map_to_list_empty. simpl. lia.
Qed.

Import FloatFacts.

Lemma float_of_int_mantissa_zero (z : Z) (d : double) :
  float_of_int z = Some d -> (mantissa d = 0 <-> z = 0).
Proof.
  intros Hd. destruct (Z.lt_trichotomy z 0) as [Hz|[->|Hz]].
  - rewrite float_of_int_opp in Hd by assumption.
    destruct (float_of_int (- z)) as [d'|] eqn:Hd'; [|discriminate].
    injection Hd as <-. simpl.
    destruct (float_of_int_pos (- z)) as [_ Hp]; [lia|].
    destruct (Hp d' Hd') as (_ & _ & Hm). lia.
  - rewrite float_of_int_zero in Hd. injection Hd as <-. simpl. tauto.
  - destruct (float_of_int_pos z Hz) as [_ Hp].
    destruct (Hp d Hd) as (_ & _ & Hm). lia.
Qed.

(** The three outcomes of [get_hit_stat]. *)
Lemma get_hit_stat_cases (c : t) :
  match float_of_int (requests c - hits c), float_of_int (requests c) with
  | Some m, Some r =>
      if decide (requests c = 0) then get_hit_stat c = Raise ZeroDivisionError c
      else get_hit_stat c
           = Ret {| stat_requests := requests c;
                    stat_hits := hits c;
                    stat_misses := requests c - hits c;
                    stat_miss_chance := float_div m r |} c
  | _, _ => get_hit_stat c = Raise OverflowError c
  end.
Proof.
  unfold get_hit_stat.
  destruct (float_of_int (requests c - hits c)) as [m|]; [|reflexivity].
  destruct (float_of_int (requests c)) as [r|] eqn:Hr; [|reflexivity].
  pose proof (float_of_int_mantissa_zero _ _ Hr) as Hz.
  repeat case_decide; try reflexivity; tauto.
Qed.

(** C8 (amended).  [get_hit_stat] raises [OverflowError] exactly when
    [misses] or [requests] is too large for a double, in magnitude at
    least [2^1024 - 2^970].  Short of that it raises [ZeroDivisionError]
    exactly when [requests] is zero, and otherwise returns the four
    entries, [misses] being [requests - hits] and [miss_chance] the float
    quotient of the doubles of [misses] and [requests]; the cache is left
    as it was. *)
Theorem get_hit_stat_division (c : t) :
  (get_hit_stat c = Raise OverflowError c
   <-> float_overflow <= Z.abs (requests c - hits c)
       \/ float_overflow <= Z.abs (requests c))
  /\ (Z.abs (requests c - hits c) < float_overflow ->
      (get_hit_stat c = Raise ZeroDivisionError c <-> requests c = 0))
  /\ (Z.abs (requests c - hits c) < float_overflow ->
      Z.abs (requests c) < float_overflow ->
      requests c <> 0 ->
      exists m r,
        float_of_int (requests c - hits c) = Some m
        /\ float_of_int (requests c) = Some r
        /\ get_hit_stat c
           = Ret {| stat_requests := requests c;
                    stat_hits := hits c;
                    stat_misses := requests c - hits c;
                    stat_miss_chance := float_div m r |} c).
Proof.
  pose proof (get_hit_stat_cases c) as Hc.
  pose proof (float_of_int_None_iff (requests c - hits c)) as Hm.
  pose proof (float_of_int_None_iff (requests c)) as Hr.
  destruct (float_of_int (requests c - hits c)) as [m|];
    destruct (float_of_int (requests c)) as [r|];
    try (assert (float_overflow <= Z.abs (requests c - hits c)) by (apply Hm; reflexivity));
    try (assert (float_overflow <= Z.abs (requests c)) by (apply Hr; reflexivity));
    try (assert (Z.abs (requests c - hits c) < float_overflow)
           by (apply Z.nle_gt; intros Hx; apply Hm in Hx; discriminate));
    try (assert (Z.abs (requests c) < float_overflow)
           by (apply Z.nle_gt; intros Hx; apply Hr in Hx; discriminate)).
  - case_decide as Hz; rewrite Hc.
    + split; [split; [discriminate|lia]|]. split; [tauto|]. intros; contradiction.
    + split; [split; [discriminate|lia]|]. split; [split; [discriminate|contradiction]|].
      intros _ _ _. eauto.
  - rewrite Hc. split; [tauto|]. split; [|intros; lia].
    intros _. split; [discriminate|]. intros Hz. rewrite Hz in *. exfalso.
    revert H. apply Z.lt_nge. reflexivity.
  - rewrite Hc. split; [tauto|]. split; intros; lia.
  - rewrite Hc. split; [tauto|]. split; intros; lia.
Qed.

Section Generic.
Context {T : Type} `{Lawful T}.

Lemma get_factor (addr : Z) (s : T) :
    get addr s =
    (ls <- gets (fun self => line_size (base self)) ;;
     line_number <- floordiv addr ls ;;
     verdict <- _in_cache line_number ;;
     inherited (bookkeeping verdict line_number)) s.
Proof.
    unfold get, bookkeeping, inherited, zoom, bind, gets, modify, floordiv, ret, raise.
    case_decide; [reflexivity|].
    destruct (_in_cache _ s) as [[] s1|e s1]; [| |reflexivity].
    - rewrite !base_set_base, ?set_base_set_base; simpl.
      destruct (history (base s1) !! _) as [h|]; simpl.
      + rewrite !base_set_base, ?set_base_set_base; simpl.
        destruct (add_miss_stat _ _ _); rewrite ?set_base_set_base; reflexivity.
      + reflexivity.
    - rewrite !base_set_base, ?set_base_set_base; simpl.
      destruct (add_miss_stat _ _ _); rewrite ?set_base_set_base; reflexivity.
Qed.

  (** The outcome of [get], by cases. *)
Lemma get_cases (addr : Z) (s : T) :
    let line_number := addr / line_size (base s) in
    (line_size (base s) = 0 /\ get addr s = Raise ZeroDivisionError s)
    \/ (line_size (base s) <> 0 /\
        match _in_cache line_number s with
        | Raise e s1 => get addr s = Raise e s1
        | Ret verdict s1 =>
            match bookkeeping verdict line_number (base s1) with
            | Ret v c' => get addr s = Ret v (set_base c' s1)
            | Raise e c' => get addr s = Raise e (set_base c' s1)
            end
        end).
Proof.
    rewrite get_factor.
    unfold inherited, zoom, bind, gets, floordiv, ret, raise.
    case_decide; [left; auto|right; split; [assumption|]].
    destruct (_in_cache _ s) as [v s1|e s1]; [|reflexivity].
    destruct (bookkeeping _ _ _); reflexivity.
Qed.

Lemma get_base_static (addr : Z) (s : T) :
    let c' := base (state_of (get addr s)) in
    line_size c' = line_size (base s) /\ size c' = size (base s)
    /\ blocks c' = blocks (base s).
Proof.
    destruct (get_cases addr s) as [[_ ->]|[_ Hg]]; [simpl; auto|].
    pose proof (in_cache_frame (addr / line_size (base s)) s) as Hf.
    destruct (_in_cache _ s) as [v s1|e s1]; simpl in Hf.
    - pose proof (bookkeeping_static v (addr / line_size (base s)) (base s1)) as Hb.
      destruct (bookkeeping _ _ _); rewrite Hg; simpl in *;
        rewrite base_set_base; rewrite Hf in Hb; simpl in Hb; exact Hb.
    - rewrite Hg. simpl. rewrite Hf. simpl. auto.
Qed.

Lemma get_counts (addr : Z) (s : T) :
    let c' := base (state_of (get addr s)) in
    0 <= hits (base s) <= requests (base s) -> 0 <= hits c' <= requests c'.
Proof.
    destruct (get_cases addr s) as [[_ ->]|[_ Hg]]; [simpl; auto|].
    pose proof (in_cache_frame (addr / line_size (base s)) s) as Hf.
    destruct (_in_cache _ s) as [v s1|e s1]; simpl in Hf.
    - pose proof (bookkeeping_counts v (addr / line_size (base s)) (base s1)) as Hb.
      destruct (bookkeeping _ _ _); rewrite Hg; simpl in *;
        rewrite base_set_base; rewrite Hf in Hb; simpl in Hb; exact Hb.
    - rewrite Hg. simpl. rewrite Hf. simpl. auto.
Qed.

Lemma get_valid (addr : Z) (s : T) : valid s -> valid (state_of (get addr s)).
Proof.
    intros Hv.
    destruct (get_cases addr s) as [[_ ->]|[_ Hg]]; [assumption|].
    pose proof (valid_in_cache (addr / line_size (base s)) s Hv) as Hv1.
    pose proof (in_cache_frame (addr / line_size (base s)) s) as Hf.
    destruct (_in_cache _ s) as [v s1|e s1]; simpl in Hf, Hv1.
    - pose proof (bookkeeping_static v (addr / line_size (base s)) (base s1)) as Hb.
      destruct (bookkeeping _ _ _); rewrite Hg; simpl in *;
        apply valid_set_base; tauto.
    - rewrite Hg. assumption.
Qed.

Lemma run_valid (trace : list Z) (s : T) : valid s -> valid (run trace s).
Proof.
    revert s. induction trace as [|a tr IH]; intros s Hv; simpl; [assumption|].
    apply IH, get_valid, Hv.
Qed.


Lemma run_base_static (trace : list Z) (s : T) :
    let c' := base (run trace s) in
    line_size c' = line_size (base s) /\ size c' = size (base s)
    /\ blocks c' = blocks (base s).
Proof.
    revert s. induction trace as [|a tr IH]; intros s; simpl; [auto|].
    destruct (IH (state_of (get a s))) as (-> & -> & ->). apply get_base_static.
Qed.
(** C5.  A [get] call that misses appends one sample to the miss stream:
    [-1] when the line has no entry in [history], otherwise the incremented
    [requests] minus that entry; afterwards [history] maps the line to the
    incremented [requests].  The hit stream is left alone. *)
Theorem get_miss_sample (addr : Z) (s s' : T) :
  valid s ->
  get addr s = Ret false s' ->
  let line_number := addr / line_size (base s) in
  let requests' := requests (base s) + 1 in
  requests (base s') = requests'
  /\ miss_stream (base s') = miss_stream (base s) ++
       [match history (base s) !! line_number with
        | None => -1
        | Some h => requests' - h
        end]
  /\ hit_stream (base s') = hit_stream (base s)
  /\ history (base s') !! line_number = Some requests'.
Proof.
  intros Hv Hg line_number requests'.
  destruct (get_cases addr s) as [[_ Hz]|[_ Hc]]; [congruence|].
  fold line_number in Hc.
  pose proof (in_cache_frame line_number s) as Hf.
  pose proof (in_cache_miss_history line_number s) as Hm.
  destruct (_in_cache line_number s) as [verdict s1|e s1]; [|congruence].
  simpl in Hf.
  destruct (bookkeeping verdict line_number (base s1)) as [v c'|e c'] eqn:Hb;
    [|congruence].
  rewrite Hg in Hc. injection Hc as <- ->.
  destruct (bookkeeping_ret _ _ _ _ _ Hb) as (<- & _).
  destruct (bookkeeping_miss line_number (base s1)) as (c1 & Hb1 & Hr & _ & Hy & Hs & Hms).
  rewrite Hb in Hb1. injection Hb1 as <-.
  rewrite base_set_base, Hr, Hy, Hs, Hms, (Hm s1 Hv eq_refl).
  rewrite Hf. simpl. rewrite lookup_insert_eq. unfold requests'. auto.
Qed.

Lemma get_ret_count (addr : Z) (v : bool) (s s' : T) :
  get addr s = Ret v s' ->
  requests (base s') = requests (base s) + 1
  /\ (length (hit_stream (base s')) + length (miss_stream (base s'))
      = S (length (hit_stream (base s)) + length (miss_stream (base s))))%nat.
Proof.
  intros Hg.
  destruct (get_cases addr s) as [[_ Hz]|[_ Hc]]; [congruence|].
  pose proof (in_cache_frame (addr / line_size (base s)) s) as Hf.
  destruct (_in_cache _ s) as [verdict s1|e s1]; [|congruence].
  simpl in Hf.
  destruct (bookkeeping verdict _ (base s1)) as [v' c'|e c'] eqn:Hb; [|congruence].
  rewrite Hg in Hc. injection Hc as <- ->.
  destruct (bookkeeping_ret _ _ _ _ _ Hb) as (_ & Hr & Hl).
  rewrite base_set_base, Hr, Hl, Hf. simpl. auto.
Qed.

Lemma for_each_get_count (trace : list Z) (s s' : T) :
  for_each (fun addr => get addr ;; ret tt) trace s = Ret tt s' ->
  requests (base s') = requests (base s) + Z.of_nat (length trace)
  /\ (length (hit_stream (base s')) + length (miss_stream (base s'))
      = length (hit_stream (base s)) + length (miss_stream (base s)) + length trace)%nat.
Proof.
  revert s. induction trace as [|a tr IH]; intros s; simpl.
  - intros [= <-]. split; lia.
  - unfold bind at 1 2, ret at 1.
    destruct (get a s) as [v s1|e s1] eqn:Hg; [|discriminate].
    intros Hrest. destruct (IH _ Hrest) as [Hr Hl].
    destruct (get_ret_count _ _ _ _ Hg) as [Hr1 Hl1]. split; lia.
Qed.

(** C6.  After any number of [get] calls that returned, [flush(True)] and
    [flush(False)] followed by [get_extended_stat()] return a statistic
    whose counts, summed over both streams, equal [requests] (which is the
    number of calls). *)
Theorem flushed_sample_count (trace : list Z) (init s : T) :
  fresh (base init) ->
  for_each (fun addr => get addr ;; ret tt) trace init = Ret tt s ->
  exists stat s',
    (inherited (flush true) ;; inherited (flush false) ;;
     inherited get_extended_stat) s = Ret stat s'
    /\ total_samples stat = requests (base s')
    /\ requests (base s') = Z.of_nat (length trace).
Proof.
  intros (_ & Hr0 & Hf1 & Hb1 & Hf2 & Hb2) Hrun.
  destruct (for_each_get_count _ _ _ Hrun) as [Hr Hl].
  unfold hit_stream, miss_stream in Hl. rewrite Hf1, Hb1, Hf2, Hb2 in Hl. simpl in Hl.
  unfold inherited, zoom, bind, flush, get_extended_stat, from_option, ret. simpl.
  rewrite !base_set_base. simpl.
  eexists _, _. split; [reflexivity|].
  rewrite base_set_base. simpl.
  unfold total_samples. simpl. rewrite !count_sum_sorted_items. lia.
Qed.

End Generic.
End CacheFacts.

(** ** DirectCache *)

Module DirectCacheFacts.
Import DirectCache.
Import CacheFacts.

Global Instance direct_lawful : Cache.Lawful t.
Proof.
  refine {| Cache.valid := fun _ => True |}; try (intros; exact I); try reflexivity.
  - intros line_number s. simpl.
    unfold _in_cache, bind, gets, pymod, from_option, modify, ret, raise.
    repeat (case_decide || destruct (getitem _ _) || destruct (setitem _ _ _));
      destruct s as [[] ?]; reflexivity.
  - intros line_number s s' _. simpl.
    unfold _in_cache, bind, gets, pymod, from_option, modify, ret, raise.
    case_decide; [discriminate|].
    destruct (getitem _ _) as [v|]; [|discriminate].
    case_decide; [discriminate|]. simpl.
    destruct (setitem _ _ _); [|discriminate].
    intros [= <-]. simpl. apply lookup_insert_ne. assumption.
Defined.

Lemma direct_init_fresh (line_size size : Z) (s : t) :
  __init__ line_size size = inr s -> Cache.fresh (super s).
Proof.
  unfold __init__, Cache.__init__. case_decide; [discriminate|].
  intros [= <-]. repeat split.
Qed.

Lemma init_slots_ok (line_size size : Z) (s : t) :
  __init__ line_size size = inr s ->
  slots_ok s /\ Cache.line_size (super s) = line_size
  /\ Cache.blocks (super s) = size / line_size.
Proof.
  unfold __init__, Cache.__init__. case_decide; [discriminate|].
  intros [= <-]. unfold slots_ok, _post_init. simpl.
  split; [|auto]. split; [assumption|]. split.
  - rewrite length_fmap. apply xrange_length.
  - split; intros n v Hn; apply list_lookup_fmap_Some in Hn as (y & -> & _).
    + left; reflexivity.
    + rewrite lookup_insert_eq. eauto.
Qed.

(** [_in_cache] on a well-shaped slot array. *)
Lemma direct_in_cache_cases (line_number : Z) (s : t) :
  length (cache s) = Z.to_nat (Cache.blocks (super s)) ->
  (Cache.blocks (super s) <= 0 /\ exists e, _in_cache line_number s = Raise e s)
  \/ (0 < Cache.blocks (super s) /\
      let n := Z.to_nat (line_number mod Cache.blocks (super s)) in
      exists v, cache s !! n = Some v /\
        ((v = line_number /\ _in_cache line_number s = Ret true s)
         \/ (v <> line_number /\
             _in_cache line_number s
             = Ret false
                 {| super := Cache.set_history
                               (<[v := Cache.requests (super s)]> (Cache.history (super s)))
                               (super s);
                    cache := <[n := line_number]> (cache s) |}))).
Proof.
  intros Hlen.
  unfold _in_cache, bind, gets, pymod, from_option, modify, ret, raise.
  destruct (Z.lt_trichotomy (Cache.blocks (super s)) 0) as [Hb|[Hb|Hb]].
  - left. split; [lia|]. case_decide; [eauto|].
    unfold getitem. rewrite Hlen. replace (Z.to_nat _) with 0%nat by lia.
    rewrite list_index_empty. eauto.
  - left. split; [lia|]. rewrite decide_True by assumption. eauto.
  - right. split; [assumption|]. rewrite decide_False by lia.
    pose proof (Z.mod_pos_bound line_number _ Hb) as Hm.
    assert (Hi : list_index (length (cache s)) (line_number mod Cache.blocks (super s))
                 = Some (Z.to_nat (line_number mod Cache.blocks (super s))))
      by (apply list_index_nonneg; lia).
    unfold getitem, setitem. rewrite Hi.
    destruct (lookup_lt_is_Some_2 (cache s) (Z.to_nat (line_number mod Cache.blocks (super s))))
      as [v Hv]; [lia|].
    simpl. exists v. split; [assumption|]. rewrite Hv.
    case_decide; [left|right]; split; try assumption; [reflexivity|].
    simpl. rewrite Hi. reflexivity.
Qed.

(** [get] on a well-shaped direct cache: it raises without touching the
    object when there is no slot, and otherwise hits or misses on the
    slot of the line. *)
Lemma get_direct (addr : Z) (s : t) :
  slots_ok s ->
  let line_number := addr / Cache.line_size (super s) in
  let n := Z.to_nat (line_number mod Cache.blocks (super s)) in
  (Cache.blocks (super s) <= 0 /\ exists e, Cache.get addr s = Raise e s)
  \/ (0 < Cache.blocks (super s) /\
      exists v c', cache s !! n = Some v
        /\ Cache.line_size c' = Cache.line_size (super s)
        /\ Cache.blocks c' = Cache.blocks (super s)
        /\ ((v = line_number
             /\ Cache.get addr s = Ret true {| super := c'; cache := cache s |}
             /\ Cache.history c' = Cache.history (super s))
            \/ (v <> line_number
                /\ Cache.get addr s
                   = Ret false {| super := c'; cache := <[n := line_number]> (cache s) |}
                /\ Cache.history c'
                   = <[line_number := Cache.requests (super s) + 1]>
                       (<[v := Cache.requests (super s)]> (Cache.history (super s)))))).
Proof.
  intros (Hls & Hlen & Hslot & Hhist) line_number n.
  destruct (get_cases addr s) as [[Hz _]|[_ Hg]]; [contradiction|].
  simpl in Hg. fold line_number in Hg.
  destruct (direct_in_cache_cases line_number s Hlen) as [[Hb [e He]]|[Hb (v & Hv & Hc)]].
  - left. split; [assumption|]. simpl in Hg. rewrite He in Hg. eauto.
  - right. split; [assumption|]. fold n in Hv, Hc.
    destruct Hc as [[-> Hc]|[Hne Hc]]; simpl in Hg; rewrite Hc in Hg.
    + destruct (Hhist _ _ Hv) as [h Hh].
      destruct (bookkeeping_hit line_number h (super s) Hh) as (c' & Hb' & _ & _ & Hy & _).
      pose proof (bookkeeping_static true line_number (super s)) as Hst.
      rewrite Hb' in Hg, Hst. simpl in Hst.
      exists line_number, c'. split; [assumption|]. split; [tauto|]. split; [tauto|].
      left. auto.
    + simpl in Hg.
      match type of Hg with context [Cache.bookkeeping false _ ?c] =>
        destruct (bookkeeping_miss line_number c) as (c' & Hb' & _ & _ & Hy & _);
        pose proof (bookkeeping_static false line_number c) as Hst end.
      rewrite Hb' in Hg, Hst. simpl in Hst, Hy.
      exists v, c'. split; [assumption|]. split; [tauto|]. split; [tauto|].
      right. auto.
Qed.

Lemma get_slots_ok (addr : Z) (s : t) :
  slots_ok s -> slots_ok (state_of (Cache.get addr s)).
Proof.
  intros Hok. pose proof Hok as (Hls & Hlen & Hslot & Hhist).
  destruct (get_direct addr s Hok) as [[_ [e ->]]|[Hb (v & c' & Hv & Hl & Hbl & Hc)]];
    [exact Hok|].
  destruct Hc as [(-> & -> & Hy)|(Hne & -> & Hy)]; simpl;
    unfold slots_ok; simpl; rewrite Hl, Hbl, Hy.
  - auto.
  - split; [assumption|]. split; [rewrite length_insert; assumption|].
    pose proof (Z.mod_pos_bound (addr / Cache.line_size (super s)) _ Hb) as Hm.
    split; intros n w Hn;
      destruct (decide (n = Z.to_nat ((addr / Cache.line_size (super s))
                                        mod Cache.blocks (super s)))) as [->|Hd].
    + rewrite list_lookup_insert_eq in Hn by lia. injection Hn as <-. right. lia.
    + rewrite list_lookup_insert_ne in Hn by congruence. eauto.
    + rewrite list_lookup_insert_eq in Hn by lia. injection Hn as <-.
      rewrite lookup_insert_eq. eauto.
    + rewrite list_lookup_insert_ne in Hn by congruence.
      destruct (Hhist _ _ Hn) as [h Hh].
      rewrite !lookup_insert. repeat case_decide; eauto.
Qed.

Lemma run_slots_ok (trace : list Z) (s : t) :
  slots_ok s ->
  slots_ok (Cache.run trace s)
  /\ Cache.line_size (super (Cache.run trace s)) = Cache.line_size (super s)
  /\ Cache.blocks (super (Cache.run trace s)) = Cache.blocks (super s).
Proof.
  intros Hok. split.
  - revert s Hok. induction trace as [|a tr IH]; intros s Hok; simpl; [assumption|].
    apply IH, get_slots_ok, Hok.
  - pose proof (run_base_static trace s) as Hs. simpl in Hs. tauto.
Qed.

(** C10.  After construction and after every [get] call the slot array of a
    direct cache has exactly [blocks] slots, and slot [n] holds either the
    sentinel [-1] or a line number congruent to [n] modulo [blocks]. *)
Theorem slot_invariant (line_size size : Z) (init : t) (trace : list Z) :
  0 <= size / line_size ->
  __init__ line_size size = inr init ->
  let s := Cache.run trace init in
  Cache.blocks (super s) = size / line_size
  /\ Z.of_nat (length (cache s)) = Cache.blocks (super s)
  /\ forall n v, cache s !! n = Some v ->
       v = -1 \/ v mod Cache.blocks (super s) = Z.of_nat n.
Proof.
  intros Hb Hinit s.
  destruct (init_slots_ok _ _ _ Hinit) as (Hok & _ & Hbl).
  destruct (run_slots_ok trace init Hok) as ((_ & Hlen & Hslot & _) & _ & Hbl').
  fold s in Hlen, Hslot, Hbl'. rewrite Hbl' , Hbl in *.
  split; [reflexivity|]. split; [lia|assumption].
Qed.

Lemma get_ret_resident (addr : Z) (v : bool) (s s1 : t) :
  slots_ok s ->
  Cache.get addr s = Ret v s1 ->
  0 < Cache.blocks (super s) /\ resident (addr / Cache.line_size (super s)) s1.
Proof.
  intros Hok Hg. pose proof Hok as (_ & Hlen & _).
  destruct (get_direct addr s Hok) as [[_ [e He]]|[Hb (w & c' & Hw & Hl & Hbl & Hc)]];
    [congruence|].
  split; [assumption|].
  pose proof (Z.mod_pos_bound (addr / Cache.line_size (super s)) _ Hb) as Hm.
  destruct Hc as [(-> & Hg' & _)|(_ & Hg' & _)]; rewrite Hg' in Hg;
    injection Hg as _ <-; unfold resident; simpl; rewrite Hbl.
  - assumption.
  - apply list_lookup_insert_eq. lia.
Qed.

Lemma get_keeps_resident (line_number addr : Z) (s : t) :
  slots_ok s ->
  0 < Cache.blocks (super s) ->
  resident line_number s ->
  addr / Cache.line_size (super s) = line_number
  \/ (addr / Cache.line_size (super s)) mod Cache.blocks (super s)
     <> line_number mod Cache.blocks (super s) ->
  resident line_number (state_of (Cache.get addr s)).
Proof.
  intros Hok Hpos Hres Hx.
  destruct (get_direct addr s Hok) as [[Hb _]|[Hb (w & c' & Hw & Hl & Hbl & Hc)]]; [lia|].
  pose proof (Z.mod_pos_bound (addr / Cache.line_size (super s)) _ Hb) as Hm.
  pose proof (Z.mod_pos_bound line_number _ Hb) as Hm'.
  destruct Hc as [(-> & -> & _)|(Hne & -> & _)]; unfold resident; simpl; rewrite Hbl.
  - assumption.
  - destruct Hx as [Hx|Hx].
    + rewrite Hx in Hw. unfold resident in Hres. congruence.
    + rewrite list_lookup_insert_ne by lia. assumption.
Qed.

Lemma get_resident_hits (addr : Z) (s : t) :
  slots_ok s ->
  0 < Cache.blocks (super s) ->
  resident (addr / Cache.line_size (super s)) s ->
  exists s', Cache.get addr s = Ret true s'.
Proof.
  intros Hok Hpos Hres.
  destruct (get_direct addr s Hok) as [[Hb _]|[Hb (w & c' & Hw & Hl & Hbl & Hc)]]; [lia|].
  destruct Hc as [(_ & -> & _)|(Hne & _)]; [eauto|].
  unfold resident in Hres. congruence.
Qed.

(** C9.  Once a [get] call on a line has returned, a later access to that
    line hits, whatever accesses came in between, provided each of them
    was to the same line or to a line of another slot. *)
Theorem repeated_access_hits (line_size size : Z) (init : t) (pre mid : list Z)
        (addr addr' : Z) (v : bool) (s1 : t) :
  __init__ line_size size = inr init ->
  Cache.get addr (Cache.run pre init) = Ret v s1 ->
  (forall x, x ∈ mid ->
     x / line_size = addr / line_size
     \/ (x / line_size) mod (size / line_size)
        <> (addr / line_size) mod (size / line_size)) ->
  addr' / line_size = addr / line_size ->
  exists s3, Cache.get addr' (Cache.run mid s1) = Ret true s3.
Proof.
  intros Hinit Hg Hmid Hsame.
  destruct (init_slots_ok _ _ _ Hinit) as (Hok0 & Hls0 & Hbl0).
  destruct (run_slots_ok pre init Hok0) as (Hok & Hls & Hbl).
  rewrite Hls0 in Hls. rewrite Hbl0 in Hbl.
  destruct (get_ret_resident _ _ _ _ Hok Hg) as [Hpos Hres].
  rewrite Hls in Hres. rewrite Hbl in Hpos.
  pose proof (get_slots_ok addr _ Hok) as Hok1.
  pose proof (get_base_static addr (Cache.run pre init)) as (Hls1 & _ & Hbl1).
  rewrite Hg in Hok1, Hls1, Hbl1. simpl in Hok1, Hls1, Hbl1.
  rewrite Hls in Hls1. rewrite Hbl in Hbl1.
  clear Hg Hok Hls Hbl Hok0 Hls0 Hbl0 Hinit.
  revert s1 Hok1 Hls1 Hbl1 Hres Hmid.
  induction mid as [|x mid IH]; intros s1 Hok1 Hls1 Hbl1 Hres Hmid; simpl.
  - apply get_resident_hits; [assumption|lia|]. rewrite Hls1, Hsame. assumption.
  - pose proof (get_base_static x s1) as (Hls2 & _ & Hbl2). simpl in Hls2, Hbl2.
    apply IH.
    + apply get_slots_ok, Hok1.
    + congruence.
    + congruence.
    + apply get_keeps_resident; [assumption|lia|assumption|].
      rewrite Hls1, Hbl1. apply Hmid. left.
    + intros y Hy. apply Hmid. right. assumption.
Qed.
End DirectCacheFacts.

(** ** Displacement strategies and FullyAssociativeCache *)

Section DisplacementFacts.
Variable iteritems : gmap Z Z -> list (Z * Z).
Hypothesis iteritems_perm : forall m, iteritems m ≡ₚ map_to_list m.

Lemma head_insert_by_value (x : Z * Z) (l : list (Z * Z)) :
  head (insert_by_value x l)
  = Some (match head l with
          | Some y => if decide (x.2 <= y.2) then x else y
          | None => x
          end).
Proof. destruct l as [|y l]; simpl; [reflexivity|]. case_decide; reflexivity. Qed.

Lemma head_sorted_by_value (l : list (Z * Z)) :
  l <> [] ->
  exists x, head (sorted_by_value l) = Some x /\ x ∈ l /\ forall y, y ∈ l -> x.2 <= y.2.
Proof.
  induction l as [|a l IH]; [congruence|]. intros _. simpl.
  rewrite head_insert_by_value.
  destruct l as [|b l].
  - simpl. exists a. split; [reflexivity|]. split; [left|].
    intros y Hy. apply list_elem_of_singleton in Hy as ->. lia.
  - destruct IH as (x & -> & Hx & Hmin); [congruence|].
    case_decide as Hle; eexists; (split; [reflexivity|]); split.
    + left.
    + intros y Hy. apply elem_of_cons in Hy as [->|Hy]; [lia|]. specialize (Hmin y Hy). lia.
    + right. assumption.
    + intros y Hy. apply elem_of_cons in Hy as [->|Hy]; [lia|]. auto.
Qed.

Lemma oldest_displacement_min (m : gmap Z Z) :
  m <> ∅ ->
  exists victim stamp,
    oldest_displacement iteritems m = Some victim
    /\ m !! victim = Some stamp
    /\ forall l t, m !! l = Some t -> stamp <= t.
Proof.
  intros Hne. unfold oldest_displacement.
  destruct (head_sorted_by_value (iteritems m)) as ([v t] & -> & Hin & Hmin).
  - intros Hnil. apply Hne, map_to_list_empty_iff.
    apply Permutation_nil_r. rewrite <- Hnil. symmetry. apply iteritems_perm.
  - exists v, t. split; [reflexivity|]. split.
    + apply elem_of_map_to_list. rewrite <- iteritems_perm. assumption.
    + intros l t' Hl. apply (Hmin (l, t')).
      rewrite iteritems_perm. apply elem_of_map_to_list. assumption.
Qed.
End DisplacementFacts.

Module FullyAssociativeCacheFacts.
Import FullyAssociativeCache.
Import CacheFacts.

Global Instance assoc_lawful : Cache.Lawful t.
Proof.
  refine {| Cache.valid := fun _ => True |}; try (intros; exact I); try reflexivity.
  - intros line_number s. simpl.
    unfold _in_cache, bind, gets, from_option, modify, ret, raise.
    repeat (case_decide || destruct (displacement_strategy _ _) || destruct (cache _ !! _));
      simpl; destruct s as [[] ? ? ? ?]; reflexivity.
  - intros line_number s s' _. simpl.
    unfold _in_cache, bind, gets, from_option, modify, ret, raise.
    case_decide as Hres; [discriminate|].
    case_decide; simpl.
    + intros [= <-]. reflexivity.
    + destruct (displacement_strategy _ _) as [victim|]; [|discriminate]. simpl.
      destruct (cache s !! victim) as [stamp|] eqn:Hv; [|discriminate].
      intros [= <-]. simpl. apply lookup_insert_ne.
      intros ->. apply Hres. eauto.
Defined.

Lemma assoc_init_fresh (line_size size : Z) (strategy : displacement) (s : t) :
  __init__ line_size size strategy = inr s -> Cache.fresh (super s).
Proof.
  unfold __init__, Cache.__init__. case_decide; [discriminate|].
  intros [= <-]. repeat split.
Qed.

Lemma in_cache_hit (line_number : Z) (s : t) :
  is_Some (cache s !! line_number) -> _in_cache line_number s = Ret true s.
Proof.
  intros Hres. unfold _in_cache, bind, gets, ret. rewrite decide_True by assumption.
  reflexivity.
Qed.

Lemma in_cache_under_capacity (line_number : Z) (s : t) :
  cache s !! line_number = None ->
  used_size s < Cache.blocks (super s) ->
  _in_cache line_number s
  = Ret false {| super := super s;
                 displacement_strategy := displacement_strategy s;
                 cache := <[line_number := Cache.requests (super s) + 1]> (cache s);
                 used_size := used_size s + 1;
                 last_replaced := -1 |}.
Proof.
  intros Hres Hcap. unfold _in_cache, bind, gets, modify, ret.
  rewrite Hres. rewrite decide_False by (intros [? [=]]).
  rewrite decide_True by assumption. reflexivity.
Qed.

Lemma in_cache_at_capacity (line_number victim : Z) (s : t) :
  cache s !! line_number = None ->
  ~ (used_size s < Cache.blocks (super s)) ->
  displacement_strategy s (cache s) = Some victim ->
  is_Some (cache s !! victim) ->
  _in_cache line_number s
  = Ret false {| super := Cache.set_history
                            (<[victim := Cache.requests (super s) + 1]>
                               (Cache.history (super s)))
                            (super s);
                 displacement_strategy := displacement_strategy s;
                 cache := <[line_number := Cache.requests (super s) + 1]>
                            (delete victim (cache s));
                 used_size := used_size s;
                 last_replaced := victim |}.
Proof.
  intros Hres Hcap Hstrat [stamp Hv]. unfold _in_cache, bind, gets, modify, ret, from_option.
  rewrite Hres. rewrite decide_False by (intros [? [=]]).
  rewrite decide_False by assumption. rewrite Hstrat. simpl. rewrite Hv. reflexivity.
Qed.

(** C2.  [_in_cache] on a line that is not resident.  Under capacity the
    line is inserted with timestamp [requests + 1], nothing is evicted,
    [used_size] grows by one and [last_replaced] becomes [-1].  At capacity
    the victim chosen by the displacement strategy from the resident
    mapping gets [history[victim] = requests + 1], becomes
    [last_replaced], is removed, and the line is inserted with timestamp
    [requests + 1].  Both return a miss. *)
Theorem in_cache_miss (line_number : Z) (s : t) :
  cache s !! line_number = None ->
  let stamp := Cache.requests (super s) + 1 in
  (used_size s < Cache.blocks (super s) ->
     _in_cache line_number s
     = Ret false {| super := super s;
                    displacement_strategy := displacement_strategy s;
                    cache := <[line_number := stamp]> (cache s);
                    used_size := used_size s + 1;
                    last_replaced := -1 |})
  /\ (~ (used_size s < Cache.blocks (super s)) ->
      forall victim,
        displacement_strategy s (cache s) = Some victim ->
        is_Some (cache s !! victim) ->
        _in_cache line_number s
        = Ret false {| super := Cache.set_history
                                  (<[victim := stamp]> (Cache.history (super s)))
                                  (super s);
                       displacement_strategy := displacement_strategy s;
                       cache := <[line_number := stamp]> (delete victim (cache s));
                       used_size := used_size s;
                       last_replaced := victim |}).
Proof.
  intros Hres stamp. split.
  - apply in_cache_under_capacity, Hres.
  - intros Hcap victim. apply in_cache_at_capacity; assumption.
Qed.

Lemma fill_lookup_other (r : Z) (lines : list Z) (m : gmap Z Z) (l : Z) :
  l ∉ lines -> fill r lines m !! l = m !! l.
Proof.
  revert r m. induction lines as [|x lines IH]; intros r m Hl; simpl; [reflexivity|].
  apply not_elem_of_cons in Hl as [Hne Hl].
  rewrite IH by assumption. apply lookup_insert_ne. congruence.
Qed.

Lemma fill_lookup (r : Z) (lines : list Z) (m : gmap Z Z) (i : nat) (l : Z) :
  NoDup lines -> lines !! i = Some l ->
  fill r lines m !! l = Some (r + 1 + Z.of_nat i).
Proof.
  revert r m i. induction lines as [|x lines IH]; intros r m i Hnd Hi; [discriminate|].
  apply NoDup_cons in Hnd as [Hx Hnd]. simpl. destruct i as [|i]; simpl in Hi.
  - injection Hi as ->. rewrite fill_lookup_other by assumption.
    rewrite lookup_insert_eq. f_equal. lia.
  - rewrite (IH _ _ i) by assumption. f_equal. lia.
Qed.

Lemma fill_lookup_Some (r : Z) (lines : list Z) (l t : Z) :
  NoDup lines ->
  fill r lines ∅ !! l = Some t ->
  exists i, lines !! i = Some l /\ t = r + 1 + Z.of_nat i.
Proof.
  intros Hnd Hl. destruct (decide (l ∈ lines)) as [Hin|Hnin].
  - apply list_elem_of_lookup in Hin as [i Hi]. exists i. split; [assumption|].
    rewrite (fill_lookup _ _ _ _ _ Hnd Hi) in Hl. congruence.
  - rewrite fill_lookup_other in Hl by assumption. rewrite lookup_empty in Hl. discriminate.
Qed.

Lemma get_insert (addr : Z) (s : t) :
  Cache.line_size (super s) <> 0 ->
  cache s !! (addr / Cache.line_size (super s)) = None ->
  used_size s < Cache.blocks (super s) ->
  exists c', Cache.get addr s
             = Ret false {| super := c';
                            displacement_strategy := displacement_strategy s;
                            cache := <[addr / Cache.line_size (super s)
                                       := Cache.requests (super s) + 1]> (cache s);
                            used_size := used_size s + 1;
                            last_replaced := -1 |}
    /\ Cache.line_size c' = Cache.line_size (super s)
    /\ Cache.blocks c' = Cache.blocks (super s)
    /\ Cache.requests c' = Cache.requests (super s) + 1.
Proof.
  intros Hls Hres Hcap.
  destruct (get_cases addr s) as [[Hz _]|[_ Hg]]; [contradiction|].
  simpl in Hg. rewrite (in_cache_under_capacity _ _ Hres Hcap) in Hg. simpl in Hg.
  destruct (bookkeeping_miss (addr / Cache.line_size (super s)) (super s))
    as (c' & Hb & Hr & _).
  pose proof (bookkeeping_static false (addr / Cache.line_size (super s)) (super s)) as Hst.
  rewrite Hb in Hg, Hst. simpl in Hst. exists c'. tauto.
Qed.

Lemma get_evict (addr victim : Z) (s : t) :
  Cache.line_size (super s) <> 0 ->
  cache s !! (addr / Cache.line_size (super s)) = None ->
  ~ (used_size s < Cache.blocks (super s)) ->
  displacement_strategy s (cache s) = Some victim ->
  is_Some (cache s !! victim) ->
  exists c', Cache.get addr s
             = Ret false {| super := c';
                            displacement_strategy := displacement_strategy s;
                            cache := <[addr / Cache.line_size (super s)
                                       := Cache.requests (super s) + 1]>
                                       (delete victim (cache s));
                            used_size := used_size s;
                            last_replaced := victim |}.
Proof.
  intros Hls Hres Hcap Hstrat Hv.
  destruct (get_cases addr s) as [[Hz _]|[_ Hg]]; [contradiction|].
  simpl in Hg. rewrite (in_cache_at_capacity _ _ _ Hres Hcap Hstrat Hv) in Hg. simpl in Hg.
  match type of Hg with context [Cache.bookkeeping false ?l ?c] =>
    destruct (bookkeeping_miss l c) as (c' & Hb & _) end.
  rewrite Hb in Hg. exists c'. assumption.
Qed.

(** Inserting distinct new lines while there is room. *)
Lemma run_fill (trace : list Z) (s : t) :
  let ls := Cache.line_size (super s) in
  let lines := (fun a => a / ls) <$> trace in
  ls <> 0 ->
  NoDup lines ->
  (forall l, l ∈ lines -> cache s !! l = None) ->
  used_size s + Z.of_nat (length trace) <= Cache.blocks (super s) ->
  let s' := Cache.run trace s in
  cache s' = fill (Cache.requests (super s)) lines (cache s)
  /\ used_size s' = used_size s + Z.of_nat (length trace)
  /\ displacement_strategy s' = displacement_strategy s
  /\ Cache.requests (super s') = Cache.requests (super s) + Z.of_nat (length trace)
  /\ Cache.line_size (super s') = ls
  /\ Cache.blocks (super s') = Cache.blocks (super s).
Proof.
  revert s. induction trace as [|a tr IH]; intros s ls lines Hls Hnd Hnew Hroom.
  - simpl. repeat split; lia.
  - subst lines ls. rewrite fmap_cons in Hnd, Hnew. apply NoDup_cons in Hnd as [Ha Hnd].
    simpl in Hroom.
    destruct (get_insert a s Hls) as (c' & Hg & Hl' & Hb' & Hr').
    { apply Hnew. left. }
    { lia. }
    simpl. rewrite Hg. simpl.
    match goal with |- context [Cache.run tr ?s1] => specialize (IH s1) end.
    simpl in IH. rewrite Hl', Hb', Hr' in IH.
    destruct IH as (E1 & E2 & E3 & E4 & E5 & E6).
    + assumption.
    + assumption.
    + intros l Hl. rewrite lookup_insert_ne; [apply Hnew; right; assumption|].
      intros <-. contradiction.
    + lia.
    + rewrite E1, E2, E3, E4, E5, E6. repeat split; try lia.
Qed.

(** C3.  A new cache with the oldest strategy and [B >= 1] blocks, [B]
    accesses to pairwise distinct lines, then an access to one more new
    line: that access misses and evicts a line that was resident with the
    smallest timestamp of the [B] resident lines (which is the line
    accessed first), whatever order the dictionary iterates in. *)
Theorem oldest_evicts_smallest_timestamp
        (iteritems : gmap Z Z -> list (Z * Z)) (line_size size : Z) (init : t)
        (trace : list Z) (addr : Z) :
  (forall m, iteritems m ≡ₚ map_to_list m) ->
  __init__ line_size size (oldest_displacement iteritems) = inr init ->
  0 < size / line_size ->
  Z.of_nat (length trace) = size / line_size ->
  let lines := (fun a => a / line_size) <$> trace in
  NoDup lines ->
  addr / line_size ∉ lines ->
  let s := Cache.run trace init in
  exists victim stamp s',
    Cache.get addr s = Ret false s'
    /\ last_replaced s' = victim
    /\ (forall l, is_Some (cache s !! l) <-> l ∈ lines)
    /\ cache s !! victim = Some stamp
    /\ (forall l t, cache s !! l = Some t -> stamp <= t)
    /\ cache s' = <[addr / line_size := Cache.requests (super s) + 1]>
                    (delete victim (cache s))
    /\ head lines = Some victim.
Proof.
  intros Hperm Hinit Hpos Hlen lines Hnd Hnew s.
  assert (Hi : Cache.line_size (super init) = line_size
               /\ line_size <> 0
               /\ Cache.blocks (super init) = size / line_size
               /\ Cache.requests (super init) = 0
               /\ cache init = ∅ /\ used_size init = 0
               /\ displacement_strategy init = oldest_displacement iteritems).
  { revert Hinit. unfold __init__, Cache.__init__. case_decide; [discriminate|].
    intros [= <-]. simpl. auto 10. }
  destruct Hi as (Hls & Hnz & Hbl & Hrq & Hc0 & Hu0 & Hst0).
  destruct (run_fill trace init) as (Ec & Eu & Es & Er & El & Eb).
  { rewrite Hls. assumption. }
  { rewrite Hls. assumption. }
  { intros l _. rewrite Hc0. apply lookup_empty. }
  { rewrite Hu0, Hbl. lia. }
  fold s in Ec, Eu, Es, Er, El, Eb.
  rewrite Hls in Ec, El. fold lines in Ec. rewrite Hrq, Hc0 in Ec.
  assert (Hdom : forall l, is_Some (cache s !! l) <-> l ∈ lines).
  { intros l. rewrite Ec. split.
    - intros [t Ht]. destruct (fill_lookup_Some _ _ _ _ Hnd Ht) as (i & Hi & _).
      apply list_elem_of_lookup. eauto.
    - intros Hin. apply list_elem_of_lookup in Hin as [i Hi].
      rewrite (fill_lookup _ _ _ _ _ Hnd Hi). eauto. }
  destruct lines as [|l0 rest] eqn:Hlines.
  { subst lines. apply fmap_nil_inv in Hlines. subst trace. simpl in Hlen. lia. }
  assert (H0 : cache s !! l0 = Some 1).
  { rewrite Ec. rewrite (fill_lookup 0 (l0 :: rest) ∅ 0 l0 Hnd eq_refl). reflexivity. }
  destruct (oldest_displacement_min iteritems Hperm (cache s)) as (victim & stamp & Hv & Hvs & Hmin).
  { intros He. rewrite He, lookup_empty in H0. discriminate. }
  assert (Hvictim : victim = l0).
  { pose proof (Hmin _ _ H0) as Hle.
    rewrite Ec in Hvs. destruct (fill_lookup_Some _ _ _ _ Hnd Hvs) as (i & Hi & Hst).
    assert (i = 0%nat) by lia. subst i. simpl in Hi. congruence. }
  destruct (get_evict addr victim s) as (c' & Hg).
  { rewrite El. assumption. }
  { rewrite El. apply eq_None_not_Some. rewrite Hdom. assumption. }
  { rewrite Eu, Eb, Hu0, Hbl. lia. }
  { rewrite Es, Hst0. assumption. }
  { eauto. }
  rewrite El in Hg.
  eexists victim, stamp, _. split; [exact Hg|]. simpl.
  repeat split; try assumption; try (apply Hdom); try congruence.
Qed.

(** The victim reported by a miss is never the incoming line. *)
Lemma in_cache_miss_last_replaced (line_number : Z) (s s' : t) :
  _in_cache line_number s = Ret false s' ->
  last_replaced s' = -1 \/ last_replaced s' <> line_number.
Proof.
  unfold _in_cache, bind, gets, from_option, modify, ret, raise.
  case_decide as Hres; [discriminate|].
  case_decide; simpl.
  - intros [= <-]. left. reflexivity.
  - destruct (displacement_strategy _ _) as [victim|]; [|discriminate]. simpl.
    destruct (cache s !! victim) as [stamp|] eqn:Hv; [|discriminate].
    intros [= <-]. simpl. right. intros ->. apply Hres. eauto.
Qed.

Lemma get_miss_last_replaced (addr : Z) (s s' : t) :
  Cache.get addr s = Ret false s' ->
  last_replaced s' = -1 \/ last_replaced s' <> addr / Cache.line_size (super s).
Proof.
  intros Hg.
  destruct (get_cases addr s) as [[_ Hz]|[_ Hc]]; [congruence|]. simpl in Hc.
  destruct (_in_cache _ s) as [verdict s1|e s1] eqn:Hin; [|congruence].
  destruct (Cache.bookkeeping _ _ _) as [v c'|e c'] eqn:Hb; [|congruence].
  rewrite Hg in Hc. injection Hc as <- ->.
  destruct (bookkeeping_ret _ _ _ _ _ Hb) as (<- & _).
  simpl. eapply in_cache_miss_last_replaced, Hin.
Qed.
End FullyAssociativeCacheFacts.

(** ** SetAssociativeCache *)

Module SetAssociativeCacheFacts.
Import SetAssociativeCache.
Import CacheFacts.

Lemma at_set_cases {A} (set_number : Z) (m : M FullyAssociativeCache.t A) (s : t) :
  (at_set set_number m s = Raise IndexError s
   /\ (list_index (length (cache s)) set_number = None
       \/ exists n, list_index (length (cache s)) set_number = Some n
                    /\ cache s !! n = None))
  \/ exists n inner,
       list_index (length (cache s)) set_number = Some n
       /\ cache s !! n = Some inner
       /\ at_set set_number m s
          = match m inner with
            | Ret a inner' => Ret a (set_cache (<[n := inner']> (cache s)) s)
            | Raise e inner' => Raise e (set_cache (<[n := inner']> (cache s)) s)
            end.
Proof.
  unfold at_set. destruct (list_index _ _) as [n|]; [|left; auto].
  destruct (cache s !! n) as [inner|] eqn:Hn; [|left; eauto].
  right. exists n, inner. auto.
Qed.

(** [_in_cache] by cases: it either raises before reaching the owning
    set, or runs the inner [get] on it. *)
Lemma sets_in_cache_cases (line_number : Z) (s : t) :
  let s1 := state_of (_in_cache line_number s) in
  ((exists e, _in_cache line_number s = Raise e s)
   /\ forall addr, (addr / Cache.line_size (super s) = line_number) ->
        Cache.line_size (super s) <> 0 ->
        owner s addr = None \/ exists n, owner s addr = Some n /\ cache s !! n = None)
  \/ exists n inner,
       (forall addr, addr / Cache.line_size (super s) = line_number ->
                     Cache.line_size (super s) <> 0 -> owner s addr = Some n)
       /\ cache s !! n = Some inner
       /\ let o := Cache.get (line_number * Cache.line_size (super s)) inner in
          let inner' := state_of o in
          let lr := FullyAssociativeCache.last_replaced inner' in
          let history' :=
            if decide (lr <> -1)
            then <[lr := Cache.requests (super s) + 1]> (Cache.history (super s))
            else Cache.history (super s) in
          match o with
          | Raise e _ =>
              _in_cache line_number s = Raise e (set_cache (<[n := inner']> (cache s)) s)
          | Ret res _ =>
              _in_cache line_number s
              = Ret res {| super := Cache.set_history history' (super s);
                           sets_block_size := sets_block_size s;
                           cache := <[n := inner']> (cache s);
                           sets_amount := sets_amount s |}
          end.
Proof.
  remember (_in_cache line_number s) as r eqn:Hr. simpl.
  unfold _in_cache, bind, gets, floordiv, pymod, ret, raise in Hr.
  destruct (decide (sets_block_size s = 0)) as [Hsbs|Hsbs].
  { left. split; [eauto|]. intros addr <- Hls. unfold owner.
    rewrite decide_False by assumption. rewrite decide_True by assumption. auto. }
  destruct (decide (sets_amount s = 0)) as [Hsa|Hsa].
  { left. split; [eauto|]. intros addr <- Hls. unfold owner.
    rewrite decide_False by assumption. rewrite decide_False by assumption.
    rewrite decide_True by assumption. auto. }
  destruct (at_set_cases (line_number / sets_block_size s mod sets_amount s)
              (Cache.get (line_number * Cache.line_size (super s))) s)
    as [[Hat Hidx]|(n & inner & Hidx & Hn & Hat)]; rewrite Hat in Hr; clear Hat.
  { left. split; [eauto|]. intros addr <- Hls. unfold owner.
    rewrite !decide_False by assumption. destruct Hidx as [->|(n & -> & Hn)]; eauto. }
  right. exists n, inner. split.
  { intros addr <- Hls. unfold owner. rewrite !decide_False by assumption. assumption. }
  split; [assumption|].
  destruct (Cache.get _ inner) as [res inner'|e inner']; [|assumption].
  simpl. pose proof (list_index_lt _ _ _ Hidx) as Hlt.
  unfold at_set in Hr. simpl in Hr. rewrite length_insert, Hidx in Hr.
  rewrite list_lookup_insert_eq in Hr by assumption.
  rewrite list_insert_insert_eq in Hr.
  rewrite Hr. case_decide; unfold modify; simpl; reflexivity || idtac.
  destruct s as [c sbs l sa]. unfold set_cache. simpl. f_equal. f_equal.
  destruct c; reflexivity.
Qed.

Global Instance sets_lawful : Cache.Lawful t.
Proof.
  refine {| Cache.valid := sets_ok |}; try reflexivity.
  - intros b s (Hls & Hlen & Hin) Hb. unfold sets_ok. simpl. rewrite Hb. auto.
  - intros line_number s (Hls & Hlen & Hin). simpl.
    destruct (sets_in_cache_cases line_number s) as [[[e ->] _]|(n & inner & _ & Hn & Hc)];
      [repeat split; assumption|].
    simpl in Hc.
    pose proof (get_base_static (line_number * Cache.line_size (super s)) inner)
      as (Hls' & _).
    simpl in Hls'. rewrite (Hin _ _ Hn) in Hls'.
    assert (Hin' : forall k x,
               <[n := state_of (Cache.get (line_number * Cache.line_size (super s)) inner)]>
                 (cache s) !! k = Some x ->
               Cache.line_size (FullyAssociativeCache.super x) = Cache.line_size (super s)).
    { intros k x. destruct (decide (k = n)) as [->|Hk].
      - rewrite list_lookup_insert_eq by (apply lookup_lt_Some in Hn; assumption).
        intros [= <-]. assumption.
      - rewrite list_lookup_insert_ne by congruence. apply Hin. }
    destruct (Cache.get _ inner) as [res inner'|e inner']; rewrite Hc; simpl;
      unfold sets_ok; simpl; rewrite length_insert; auto.
  - intros line_number s. simpl.
    destruct (sets_in_cache_cases line_number s) as [[[e ->] _]|(n & inner & _ & Hn & Hc)].
    + simpl. destruct s as [[] ? ? ?]; reflexivity.
    + simpl in Hc. destruct (Cache.get _ inner) as [res inner'|e inner']; rewrite Hc; simpl.
      * reflexivity.
      * destruct s as [[] ? ? ?]; reflexivity.
  - intros line_number s s' (Hls & Hlen & Hin) Hs'. simpl in *.
    destruct (sets_in_cache_cases line_number s) as [[[e He] _]|(n & inner & _ & Hn & Hc)];
      [congruence|].
    simpl in Hc.
    destruct (Cache.get _ inner) as [res inner'|e inner'] eqn:Hg; [|congruence].
    rewrite Hs' in Hc. injection Hc as <- ->. simpl.
    case_decide as Hlr; [|reflexivity].
    apply FullyAssociativeCacheFacts.get_miss_last_replaced in Hg.
    rewrite (Hin _ _ Hn), Z.div_mul in Hg by assumption.
    apply lookup_insert_ne. tauto.
Defined.

Lemma comprehension_inr {A B} (ctor : exn + B) (xs : list A) (l : list B) :
  comprehension ctor xs = inr l ->
  length l = length xs /\ forall x, x ∈ l -> ctor = inr x.
Proof.
  revert l. induction xs as [|a xs IH]; intros l; simpl.
  - intros [= <-]. split; [reflexivity|]. intros x Hx. inversion Hx.
  - destruct ctor as [e|b]; [discriminate|].
    destruct (comprehension (inr b) xs) as [e|bs]; [discriminate|].
    intros [= <-]. destruct (IH bs eq_refl) as [Hlen Hall]. simpl. split; [lia|].
    intros x Hx. apply elem_of_cons in Hx as [->|Hx]; auto.
Qed.

Lemma init_spec (line_size size : Z) (strategy : displacement) (amount : Z) (s : t) :
  __init__ line_size size strategy amount = inr s ->
  sets_ok s /\ Cache.fresh (super s)
  /\ Cache.line_size (super s) = line_size
  /\ sets_block_size s = size / amount
  /\ sets_amount s = amount.
Proof.
  unfold __init__, Cache.__init__, _post_init. case_decide as Hls; [discriminate|].
  case_decide as Ha; [discriminate|]. simpl.
  destruct (comprehension _ _) as [e|l] eqn:Hl; [discriminate|].
  intros [= <-]. apply comprehension_inr in Hl as [Hlen Hall].
  unfold sets_ok. simpl. repeat split; try assumption.
  - rewrite Hlen. apply xrange_length.
  - intros n inner Hn. apply list_elem_of_lookup_2 in Hn. apply Hall in Hn.
    revert Hn. unfold FullyAssociativeCache.__init__, Cache.__init__.
    rewrite decide_False by assumption. intros [= <-]. reflexivity.
Qed.

(** [get] changes no inner cache but the one of the owning set. *)
Lemma get_changes (addr : Z) (s : t) :
  let s' := state_of (Cache.get addr s) in
  sets_block_size s' = sets_block_size s
  /\ sets_amount s' = sets_amount s
  /\ length (cache s') = length (cache s)
  /\ forall i, owner s addr <> Some i -> cache s' !! i = cache s !! i.
Proof.
  destruct (get_cases addr s) as [[_ ->]|[Hls Hg]]; [simpl; auto|].
  simpl in Hg.
  destruct (sets_in_cache_cases (addr / Cache.line_size (super s)) s)
    as [[[e He] _]|(n & inner & Hown & Hn & Hc)].
  - rewrite He in Hg. rewrite Hg. simpl. auto.
  - specialize (Hown addr eq_refl Hls). simpl in Hc.
    assert (Hne : forall i x, owner s addr <> Some i ->
                              <[n := x]> (cache s) !! i = cache s !! i).
    { intros i x Hi. apply list_lookup_insert_ne. congruence. }
    destruct (Cache.get _ inner) as [res inner'|e inner']; rewrite Hc in Hg; simpl in Hg.
    + destruct (Cache.bookkeeping _ _ _); rewrite Hg; simpl;
        rewrite length_insert; auto.
    + rewrite Hg. simpl. rewrite length_insert; auto.
Qed.

Lemma run_static (trace : list Z) (s : t) :
  sets_block_size (Cache.run trace s) = sets_block_size s
  /\ sets_amount (Cache.run trace s) = sets_amount s.
Proof.
  revert s. induction trace as [|a tr IH]; intros s; simpl; [auto|].
  destruct (IH (state_of (Cache.get a s))) as [-> ->].
  pose proof (get_changes a s) as Hc. simpl in Hc. tauto.
Qed.

(** C4.  On a set-associative cache reached from its constructor by any
    sequence of [get] calls, a further [get] call (whether it returns or
    raises) keeps the number of sets and leaves the inner cache of every
    set other than [(line_number / sets_block_size) mod sets_amount]
    exactly as it was: no line resident in another set is evicted. *)
Theorem other_sets_unchanged (line_size size : Z) (strategy : displacement)
        (amount : Z) (init : t) (trace : list Z) (addr : Z) :
  __init__ line_size size strategy amount = inr init ->
  let s := Cache.run trace init in
  let s' := state_of (Cache.get addr s) in
  let set_number := (addr / line_size / (size / amount)) mod amount in
  length (cache s') = length (cache s)
  /\ forall i, Z.of_nat i <> set_number -> cache s' !! i = cache s !! i.
Proof.
  intros Hinit s s' set_number.
  destruct (init_spec _ _ _ _ _ Hinit) as (Hok & _ & Hls & Hsbs & Hsa).
  pose proof (@run_valid t _ sets_lawful trace init Hok) as (_ & Hlen & _). fold s in Hlen.
  destruct (run_static trace init) as [Hsbs' Hsa']. fold s in Hsbs', Hsa'.
  pose proof (run_base_static trace init) as (Hls' & _). simpl in Hls'. fold s in Hls'.
  rewrite Hls in Hls'. rewrite Hsbs in Hsbs'. rewrite Hsa in Hsa'.
  destruct (get_changes addr s) as (_ & _ & Hl & Hother). fold s' in Hl, Hother.
  split; [assumption|]. intros i Hi. apply Hother.
  unfold owner. rewrite Hls', Hsbs', Hsa'. fold set_number.
  repeat case_decide; try discriminate.
  rewrite Hlen, Hsa'. intros Hidx. apply Hi.
  destruct (decide (0 < amount)) as [Hpos|Hneg].
  - pose proof (Z.mod_pos_bound (addr / line_size / (size / amount)) amount Hpos) as Hm.
    fold set_number in Hm. rewrite list_index_nonneg in Hidx by lia.
    injection Hidx as <-. lia.
  - replace (Z.to_nat amount) with 0%nat in Hidx by lia.
    rewrite list_index_empty in Hidx. discriminate.
Qed.
End SetAssociativeCacheFacts.

(** ** The trace driver *)

Module DriverFacts.









End DriverFacts.

(** ** More on the statistics of the base class *)

Module MoreCacheFacts.
Import Cache.
Import CacheFacts.

Lemma add_miss_stat_buffers (in_cache : bool) (val : Z) (c : t) :
  buffers_ok c -> logs_ok c ->
  buffers_ok (state_of (add_miss_stat in_cache val c))
  /\ logs_ok (state_of (add_miss_stat in_cache val c)).
Proof.
  intros (H1 & H2 & H3 & H4) (L1 & L2).
  unfold add_miss_stat, bind, modify, gets, flush, ret, buffers_ok, logs_ok.
  destruct in_cache; simpl; case_decide; simpl; rewrite ?length_app; simpl.
  - split; [repeat split; lia|]. split; [|assumption].
    intros log [= <-]. rewrite !length_app. simpl. lia.
  - split; [repeat split; lia|]. split; assumption.
  - split; [repeat split; lia|]. split; [assumption|].
    intros log [= <-]. rewrite !length_app. simpl. lia.
  - split; [repeat split; lia|]. split; assumption.
Qed.

Lemma bookkeeping_buffers (verdict : bool) (line_number : Z) (c : t) :
  buffers_ok c -> logs_ok c ->
  buffers_ok (state_of (bookkeeping verdict line_number c))
  /\ logs_ok (state_of (bookkeeping verdict line_number c)).
Proof.
  intros Hb Hl. unfold bookkeeping, bind, modify, gets, ret, from_option, raise.
  destruct verdict; simpl.
  - destruct (history c !! line_number) as [h|]; simpl; [|split; assumption].
    match goal with |- context [add_miss_stat ?b ?v ?x] =>
      pose proof (add_miss_stat_buffers b v x Hb Hl) as Ha;
      destruct (add_miss_stat b v x) end; exact Ha.
  - match goal with |- context [add_miss_stat ?b ?v ?x] =>
      pose proof (add_miss_stat_buffers b v x Hb Hl) as Ha;
      destruct (add_miss_stat b v x) end; exact Ha.
Qed.

Lemma bookkeeping_stream_le (verdict : bool) (line_number : Z) (c : t) :
  let c' := state_of (bookkeeping verdict line_number c) in
  (length (hit_stream c') + length (miss_stream c')
   <= S (length (hit_stream c) + length (miss_stream c)))%nat.
Proof.
  destruct (bookkeeping verdict line_number c) as [v c'|e c'] eqn:Hb; simpl.
  - apply bookkeeping_ret in Hb as (_ & _ & ->). lia.
  - revert Hb. unfold bookkeeping, bind, modify, gets, ret, from_option, raise.
    destruct verdict; simpl.
    + destruct (history c !! line_number) as [h|]; simpl.
      * match goal with |- context [add_miss_stat ?b ?v ?x] =>
          destruct (add_miss_stat_ret b v x) as (c1 & -> & _) end. discriminate.
      * intros [= <- <-]. unfold hit_stream, miss_stream. simpl. lia.
    + match goal with |- context [add_miss_stat ?b ?v ?x] =>
        destruct (add_miss_stat_ret b v x) as (c1 & -> & _) end. discriminate.
Qed.

Section Generic.
Context {T : Type} `{Lawful T}.

Lemma get_buffers (addr : Z) (s : T) :
  buffers_ok (base s) -> logs_ok (base s) ->
  let c' := base (state_of (get addr s)) in
  buffers_ok c' /\ logs_ok c'
  /\ (length (hit_stream c') + length (miss_stream c')
      <= S (length (hit_stream (base s)) + length (miss_stream (base s))))%nat.
Proof.
  intros Hb Hl.
  destruct (get_cases addr s) as [[_ ->]|[_ Hg]]; [simpl; auto|].
  pose proof (in_cache_frame (addr / line_size (base s)) s) as Hf.
  destruct (_in_cache _ s) as [v s1|e s1]; simpl in Hf.
  - assert (Hb1 : buffers_ok (base s1)) by (rewrite Hf; exact Hb).
    assert (Hl1 : logs_ok (base s1)) by (rewrite Hf; exact Hl).
    pose proof (bookkeeping_buffers v (addr / line_size (base s)) (base s1) Hb1 Hl1) as Hk.
    pose proof (bookkeeping_stream_le v (addr / line_size (base s)) (base s1)) as Hle.
    assert (Hs : hit_stream (base s1) = hit_stream (base s)
                 /\ miss_stream (base s1) = miss_stream (base s))
      by (rewrite Hf; split; reflexivity).
    destruct Hs as [Hs1 Hs2]. rewrite Hs1, Hs2 in Hle.
    destruct (bookkeeping _ _ _); rewrite Hg; simpl in *; rewrite base_set_base; tauto.
  - rewrite Hg. simpl. rewrite Hf. repeat split; try apply Hb; try apply Hl.
    unfold hit_stream, miss_stream. simpl. lia.
Qed.

Lemma run_buffers (trace : list Z) (s : T) :
  buffers_ok (base s) -> logs_ok (base s) ->
  let c' := base (run trace s) in
  buffers_ok c' /\ logs_ok c'
  /\ (length (hit_stream c') + length (miss_stream c')
      <= length (hit_stream (base s)) + length (miss_stream (base s)) + length trace)%nat.
Proof.
  revert s. induction trace as [|a tr IH]; intros s Hb Hl; simpl.
  - repeat split; try apply Hb; try apply Hl. lia.
  - destruct (get_buffers a s Hb Hl) as (Hb1 & Hl1 & Hle).
    destruct (IH _ Hb1 Hl1) as (Hb2 & Hl2 & Hle2). repeat split; try apply Hb2; try apply Hl2.
    lia.
Qed.

Lemma new_cache_buffers (c : t) : new_cache c -> buffers_ok c /\ logs_ok c.
Proof.
  intros ((_ & _ & Hf1 & Hb1 & Hf2 & Hb2) & Hl1 & Hl2). unfold buffers_ok, logs_ok.
  rewrite Hf1, Hb1, Hf2, Hb2, Hl1, Hl2. simpl.
  repeat split; try lia; intros log [=].
Qed.

(** X1.  Whatever [get] calls a new cache has served, each buffer counter
    equals the length of its buffer and neither buffer holds more than
    10000 samples. *)
Theorem buffers_bounded (trace : list Z) (init : T) :
  new_cache (base init) ->
  let c := base (run trace init) in
  in_cache_len c = Z.of_nat (length (in_cache_history c))
  /\ Z.of_nat (length (in_cache_history c)) <= 10000
  /\ not_in_cache_len c = Z.of_nat (length (not_in_cache_history c))
  /\ Z.of_nat (length (not_in_cache_history c)) <= 10000.
Proof.
  intros Hnew c. destruct (new_cache_buffers _ Hnew) as [Hb Hl].
  destruct (run_buffers trace init Hb Hl) as ((H1 & H2 & H3 & H4) & _).
  fold c in H1, H2, H3, H4. repeat split; lia.
Qed.

(** X2.  Without an explicit [flush], [get_extended_stat] on a new cache
    that has served at most 10000 [get] calls raises [IOError]: no log
    file exists yet. *)
Theorem extended_stat_needs_flush (trace : list Z) (init : T) :
  new_cache (base init) ->
  Z.of_nat (length trace) <= 10000 ->
  let c := base (run trace init) in
  in_cache_file c = None /\ not_in_cache_file c = None
  /\ get_extended_stat c = Raise IOError c.
Proof.
  intros Hnew Hlen c. destruct (new_cache_buffers _ Hnew) as [Hb Hl].
  destruct (run_buffers trace init Hb Hl) as (_ & (L1 & L2) & Hle). fold c in L1, L2, Hle.
  destruct Hnew as ((_ & _ & Hf1 & Hb1 & Hf2 & Hb2) & _).
  unfold hit_stream, miss_stream in Hle. rewrite Hf1, Hb1, Hf2, Hb2 in Hle. simpl in Hle.
  rewrite !length_app in Hle.
  assert (E1 : in_cache_file c = None).
  { destruct (in_cache_file c) as [log|] eqn:E; [|reflexivity].
    specialize (L1 log eq_refl). simpl in Hle. lia. }
  assert (E2 : not_in_cache_file c = None).
  { destruct (not_in_cache_file c) as [log|] eqn:E; [|reflexivity].
    specialize (L2 log eq_refl). simpl in Hle. lia. }
  split; [assumption|]. split; [assumption|].
  unfold get_extended_stat, bind, from_option, raise. rewrite E1. reflexivity.
Qed.

(** X3.  A [get] call that hits counts one request and one hit and appends
    to the hit stream the incremented [requests] minus the [history] entry
    of the line as [_in_cache] left it; the miss stream and that [history]
    are not touched. *)
Theorem get_hit_sample (addr : Z) (s s' : T) :
  get addr s = Ret true s' ->
  let line_number := addr / line_size (base s) in
  exists s1 h,
    _in_cache line_number s = Ret true s1
    /\ history (base s1) !! line_number = Some h
    /\ requests (base s') = requests (base s) + 1
    /\ hits (base s') = hits (base s) + 1
    /\ hit_stream (base s') = hit_stream (base s) ++ [requests (base s) + 1 - h]
    /\ miss_stream (base s') = miss_stream (base s)
    /\ history (base s') = history (base s1).
Proof.
  intros Hg line_number.
  destruct (get_cases addr s) as [[_ Hz]|[_ Hc]]; [congruence|].
  fold line_number in Hc.
  pose proof (in_cache_frame line_number s) as Hf.
  destruct (_in_cache line_number s) as [verdict s1|e s1]; [|congruence].
  simpl in Hf.
  destruct (bookkeeping verdict line_number (base s1)) as [v c'|e c'] eqn:Hb;
    [|congruence].
  rewrite Hg in Hc. injection Hc as <- ->.
  destruct (bookkeeping_ret _ _ _ _ _ Hb) as (<- & _).
  destruct (history (base s1) !! line_number) as [h|] eqn:Hh.
  - destruct (bookkeeping_hit line_number h (base s1) Hh) as (c1 & Hb1 & Hr & Hhi & Hy & Hs & Hm).
    rewrite Hb in Hb1. injection Hb1 as <-.
    exists s1, h. rewrite base_set_base, Hr, Hhi, Hy, Hs, Hm, Hf. simpl. auto 10.
  - revert Hb. unfold bookkeeping, bind, modify, gets, ret, from_option, raise. simpl.
    rewrite Hh. discriminate.
Qed.
End Generic.
End MoreCacheFacts.

Module HistogramFacts.
Import Cache.

Lemma counter_update_lookup (m : gmap Z Z) (log : list Z) (v : Z) :
  counter_update m log !! v
  = if decide (occurrences v log = 0) then m !! v
    else Some (default 0 (m !! v) + occurrences v log).
Proof.
  revert m. induction log as [|x log IH]; intros m.
  - reflexivity.
  - unfold counter_update in *. simpl. rewrite IH. unfold occurrences.
    rewrite filter_cons. destruct (decide (x = v)) as [->|Hne].
    + simpl length. rewrite lookup_insert_eq. simpl.
      repeat case_decide; try lia; f_equal; lia.
    + rewrite lookup_insert_ne by assumption. reflexivity.
Qed.

Global Instance item_le_total : Total item_le.
Proof. intros [a b] [c d]. unfold item_le. simpl. lia. Qed.

Global Instance item_le_trans : Transitive item_le.
Proof. intros [a b] [c d] [e f]. unfold item_le. simpl. lia. Qed.

Lemma strictly_ascending (l : list (Z * Z)) :
  StronglySorted item_le l -> NoDup (l.*1) ->
  StronglySorted (fun p q : Z * Z => p.1 < q.1) l.
Proof.
  induction 1 as [|p l Hs IH Hall]; intros Hnd; [constructor|].
  rewrite fmap_cons in Hnd. apply NoDup_cons in Hnd as [Hp Hnd].
  constructor; [auto|].
  rewrite Forall_forall in Hall |- *. intros q Hq.
  destruct (Hall q Hq) as [Hlt|[Heq _]]; [assumption|].
  exfalso. apply Hp. rewrite Heq. apply list_elem_of_fmap. eauto.
Qed.

Lemma sorted_items_histogram (log : list Z) :
  histogram_of log (sorted_items (counter_update ∅ log)).
Proof.
  unfold sorted_items. split.
  - apply strictly_ascending.
    + apply StronglySorted_merge_sort; apply _.
    + rewrite merge_sort_Permutation. apply NoDup_fst_map_to_list.
  - intros v c. rewrite merge_sort_Permutation, elem_of_map_to_list.
    rewrite counter_update_lookup, lookup_empty. simpl.
    assert (0 <= occurrences v log) by (unfold occurrences; lia).
    case_decide; split.
    + discriminate.
    + lia.
    + intros [= <-]. lia.
    + intros [_ ->]. reflexivity.
Qed.

(** X4.  When both logs exist, [get_extended_stat] returns, leaving the
    cache as it is, the histogram of each log: pairs of a sample value and
    the number of its occurrences, strictly ascending in the value. *)
Theorem get_extended_stat_histograms (c : t) (hit_log miss_log : list Z) :
  in_cache_file c = Some hit_log ->
  not_in_cache_file c = Some miss_log ->
  exists stat,
    get_extended_stat c = Ret stat c
    /\ histogram_of hit_log (stat_in_cache stat)
    /\ histogram_of miss_log (stat_not_in_cache stat).
Proof.
  intros Hh Hm. unfold get_extended_stat, bind, from_option, ret.
  rewrite Hh. simpl. rewrite Hm. simpl.
  eexists. split; [reflexivity|]. simpl. split; apply sorted_items_histogram.
Qed.
End HistogramFacts.

(** ** More on DirectCache *)

Module MoreDirectCacheFacts.
Import DirectCache.
Import CacheFacts.
Import DirectCacheFacts.

Lemma get_no_slot (addr : Z) (s : t) :
  slots_ok s ->
  (Cache.blocks (super s) = 0 -> Cache.get addr s = Raise ZeroDivisionError s)
  /\ (Cache.blocks (super s) < 0 -> Cache.get addr s = Raise IndexError s).
Proof.
  intros (Hls & Hlen & _).
  destruct (get_cases addr s) as [[Hz _]|[_ Hg]]; [contradiction|].
  simpl in Hg. revert Hg.
  unfold _in_cache, bind, gets, pymod, from_option, raise, ret.
  split; intros Hb.
  - rewrite decide_True in Hg by assumption. exact Hg.
  - rewrite decide_False in Hg by lia. revert Hg.
    unfold getitem. rewrite Hlen. replace (Z.to_nat _) with 0%nat by lia.
    rewrite list_index_empty. auto.
Qed.

(** X5.  On a direct cache reached from its constructor, [get] raises
    exactly when [blocks <= 0]: [ZeroDivisionError] with no block, and
    [IndexError] with a negative count; the cache is left as it was. *)
Theorem get_raises_iff_no_block (line_size size : Z) (init : t) (trace : list Z)
        (addr : Z) :
  __init__ line_size size = inr init ->
  let s := Cache.run trace init in
  ((exists e s', Cache.get addr s = Raise e s') <-> size / line_size <= 0)
  /\ (size / line_size = 0 -> Cache.get addr s = Raise ZeroDivisionError s)
  /\ (size / line_size < 0 -> Cache.get addr s = Raise IndexError s).
Proof.
  intros Hinit s.
  destruct (init_slots_ok _ _ _ Hinit) as (Hok0 & _ & Hbl0).
  destruct (run_slots_ok trace init Hok0) as (Hok & _ & Hbl). fold s in Hok, Hbl.
  rewrite Hbl0 in Hbl.
  destruct (get_no_slot addr s Hok) as [Hz Hn]. rewrite Hbl in Hz, Hn.
  split; [|split; assumption].
  split.
  - intros (e & s' & He).
    destruct (get_direct addr s Hok) as [[Hb _]|[_ (v & c' & _ & _ & _ & Hc)]]; [lia|].
    destruct Hc as [(_ & Hc & _)|(_ & Hc & _)]; congruence.
  - intros Hb. destruct (decide (size / line_size = 0)) as [H0|H0].
    + rewrite (Hz H0). eauto.
    + rewrite Hn by lia. eauto.
Qed.

(** X6.  The very first access to line [-1] of a new direct cache with at
    least one block is reported as a hit: the empty slots hold [-1], and
    [history[-1] = 0] turns the sample into [1]. *)
Theorem first_access_to_sentinel_line_hits (line_size size : Z) (init : t) (addr : Z) :
  __init__ line_size size = inr init ->
  0 < size / line_size ->
  addr / line_size = -1 ->
  exists s',
    Cache.get addr init = Ret true s'
    /\ Cache.hits (super s') = 1
    /\ Cache.requests (super s') = 1
    /\ Cache.hit_stream (super s') = [1]
    /\ cache s' = cache init.
Proof.
  unfold __init__, Cache.__init__. case_decide as Hls; [discriminate|].
  intros [= <-] Hb Hline.
  set (init := _post_init _).
  assert (Hok : slots_ok init).
  { apply (init_slots_ok line_size size). unfold __init__, Cache.__init__.
    rewrite decide_False by assumption. reflexivity. }
  destruct (get_cases addr init) as [[Hz _]|[_ Hg]]; [contradiction|].
  simpl in Hg. rewrite Hline in Hg.
  destruct (direct_in_cache_cases (-1) init) as [[Hb' _]|[_ (v & Hv & Hc)]].
  { apply Hok. }
  { simpl in Hb'. lia. }
  simpl in Hv. apply list_lookup_fmap_Some in Hv as (y & -> & _).
  destruct Hc as [[_ Hc]|[Hne _]]; [|congruence].
  rewrite Hc in Hg. simpl in Hg.
  destruct (bookkeeping_hit (-1) 0 (super init)) as (c' & Hb1 & Hr & Hh & _ & Hs & _).
  { simpl. apply lookup_insert_eq. }
  simpl in Hb1. rewrite Hb1 in Hg.
  eexists. split; [exact Hg|]. simpl. rewrite Hr, Hh, Hs. simpl. auto.
Qed.

(** X7.  A [get] call that hits leaves the slot array and [history] of a
    direct cache as they were. *)
Theorem hit_changes_no_slot (addr : Z) (s s' : t) :
  slots_ok s ->
  Cache.get addr s = Ret true s' ->
  cache s' = cache s /\ Cache.history (super s') = Cache.history (super s).
Proof.
  intros Hok Hg.
  destruct (get_direct addr s Hok) as [[_ [e He]]|[_ (v & c' & _ & _ & _ & Hc)]];
    [congruence|].
  destruct Hc as [(_ & Hc & Hy)|(_ & Hc & _)]; rewrite Hc in Hg; [|discriminate].
  injection Hg as <-. simpl. auto.
Qed.

Lemma thrash_run (trace : list Z) (s : t) :
  slots_ok s ->
  0 < Cache.blocks (super s) ->
  let ls := Cache.line_size (super s) in
  let lines := (fun a => a / ls) <$> trace in
  (forall l l', l ∈ lines -> l' ∈ lines ->
     l mod Cache.blocks (super s) = l' mod Cache.blocks (super s)) ->
  alternating lines ->
  (forall l, head lines = Some l -> ~ resident l s) ->
  Cache.hits (super (Cache.run trace s)) = Cache.hits (super s)
  /\ Cache.requests (super (Cache.run trace s))
     = Cache.requests (super s) + Z.of_nat (length trace).
Proof.
  revert s. induction trace as [|a tr IH]; intros s Hok Hb ls lines Hslot Halt Hhead.
  - simpl. lia.
  - subst lines ls. rewrite fmap_cons in Hslot, Halt, Hhead.
    destruct (get_direct a s Hok) as [[Hb' _]|[_ (v & c' & Hv & Hl & Hbl & Hc)]]; [lia|].
    destruct Hc as [(-> & _)|(Hne & Hg & Hy)].
    { exfalso. apply (Hhead _ eq_refl). exact Hv. }
    pose proof (get_slots_ok a s Hok) as Hok1.
    pose proof (get_ret_count a false s _ Hg) as [Hr _].
    pose proof (get_counts a s) as _.
    assert (Hh : Cache.hits c' = Cache.hits (super s)).
    { destruct (get_cases a s) as [[Hz _]|[_ Hc]]; [destruct Hok; contradiction|].
      simpl in Hc.
      destruct (direct_in_cache_cases (a / Cache.line_size (super s)) s)
        as [[Hb' _]|[_ (w & Hw & Hcc)]]; [apply Hok|lia|].
      rewrite Hv in Hw. injection Hw as <-.
      destruct Hcc as [[Heq _]|[_ Hcc]]; [contradiction|].
      rewrite Hcc in Hc. simpl in Hc.
      match type of Hc with context [Cache.bookkeeping false ?l ?c] =>
        destruct (bookkeeping_miss l c) as (c1 & Hb1 & _ & Hh1 & _) end.
      rewrite Hb1, Hg in Hc. injection Hc as ->. exact Hh1. }
    simpl. rewrite Hg in Hok1 |- *. simpl in Hok1 |- *. simpl in Hr.
    match goal with |- context [Cache.run tr ?s1] => specialize (IH s1 Hok1) end.
    simpl in IH. rewrite Hl, Hbl in IH.
    destruct IH as [IH1 IH2].
    + assumption.
    + intros l l' Hin Hin'. apply Hslot; right; assumption.
    + destruct tr; [exact I|]. apply Halt.
    + intros l Hl'. unfold resident. simpl. rewrite Hbl.
      destruct tr as [|b tr]; [discriminate|]. simpl in Hl'. injection Hl' as <-.
      destruct Halt as [Hne' _]. simpl in Hne'.
      rewrite <- (Hslot (a / Cache.line_size (super s)) (b / Cache.line_size (super s)))
        by (simpl; auto using list_elem_of_here, list_elem_of_further).
      pose proof (Z.mod_pos_bound (a / Cache.line_size (super s)) _ Hb) as Hm.
      rewrite list_lookup_insert_eq by (destruct Hok as (_ & Hlen & _); lia).
      congruence.
    + rewrite IH1, IH2, Hh, Hr. simpl length. lia.
Qed.

(** X8.  On a new direct cache with at least one block, a sequence of
    accesses to lines of one slot in which no line is accessed twice in a
    row (and which does not start with line [-1]) misses every time: no
    hit is counted and every access is a request. *)
Theorem same_slot_alternation_misses (line_size size : Z) (init : t) (trace : list Z) :
  __init__ line_size size = inr init ->
  0 < size / line_size ->
  let lines := (fun a => a / line_size) <$> trace in
  (forall l l', l ∈ lines -> l' ∈ lines ->
     l mod (size / line_size) = l' mod (size / line_size)) ->
  alternating lines ->
  head lines <> Some (-1) ->
  Cache.hits (super (Cache.run trace init)) = 0
  /\ Cache.requests (super (Cache.run trace init)) = Z.of_nat (length trace).
Proof.
  intros Hinit Hb lines Hslot Halt Hhead.
  destruct (init_slots_ok _ _ _ Hinit) as (Hok & Hls & Hbl).
  destruct (direct_init_fresh _ _ _ Hinit) as (Hh & Hr & _).
  destruct (thrash_run trace init Hok) as [E1 E2].
  - lia.
  - rewrite Hls, Hbl. exact Hslot.
  - rewrite Hls. exact Halt.
  - rewrite Hls. intros l Hl Hres. apply Hhead. fold lines in Hl. rewrite Hl. f_equal.
    revert Hinit Hres. unfold __init__, Cache.__init__, resident.
    case_decide; [discriminate|]. intros [= <-]. simpl.
    intros Hres. apply list_lookup_fmap_Some in Hres as (y & -> & _). reflexivity.
  - rewrite E1, E2, Hh, Hr. lia.
Qed.
End MoreDirectCacheFacts.

(** ** More on the strategies and FullyAssociativeCache *)

Module MoreFullyAssociativeCacheFacts.
Import FullyAssociativeCache.
Import CacheFacts.
Import FullyAssociativeCacheFacts.

Lemma in_cache_no_victim (line_number : Z) (s : t) :
  cache s !! line_number = None ->
  ~ (used_size s < Cache.blocks (super s)) ->
  displacement_strategy s (cache s) = None ->
  _in_cache line_number s = Raise IndexError s.
Proof.
  intros Hres Hcap Hstrat. unfold _in_cache, bind, gets, modify, ret, from_option, raise.
  rewrite Hres. rewrite decide_False by (intros [? [=]]).
  rewrite decide_False by assumption. rewrite Hstrat. reflexivity.
Qed.

Lemma in_cache_foreign_victim (line_number victim : Z) (s : t) :
  cache s !! line_number = None ->
  ~ (used_size s < Cache.blocks (super s)) ->
  displacement_strategy s (cache s) = Some victim ->
  cache s !! victim = None ->
  _in_cache line_number s
  = Raise KeyError {| super := Cache.set_history
                                 (<[victim := Cache.requests (super s) + 1]>
                                    (Cache.history (super s)))
                                 (super s);
                      displacement_strategy := displacement_strategy s;
                      cache := cache s;
                      used_size := used_size s;
                      last_replaced := victim |}.
Proof.
  intros Hres Hcap Hstrat Hv. unfold _in_cache, bind, gets, modify, ret, from_option, raise.
  rewrite Hres. rewrite decide_False by (intros [? [=]]).
  rewrite decide_False by assumption. rewrite Hstrat. simpl. rewrite Hv. reflexivity.
Qed.

(** The outcome of [get] in each of the five situations. *)
Lemma get_assoc (addr : Z) (s : t) :
  Cache.line_size (super s) <> 0 ->
  let line_number := addr / Cache.line_size (super s) in
  let stamp := Cache.requests (super s) + 1 in
  match cache s !! line_number with
  | Some _ =>
      match Cache.history (super s) !! line_number with
      | Some h =>
          exists c', Cache.get addr s = Ret true (set_super c' s)
            /\ Cache.line_size c' = Cache.line_size (super s)
            /\ Cache.blocks c' = Cache.blocks (super s)
            /\ Cache.requests c' = stamp
            /\ Cache.history c' = Cache.history (super s)
      | None => exists c', Cache.get addr s = Raise KeyError (set_super c' s)
      end
  | None =>
      if decide (used_size s < Cache.blocks (super s)) then
        exists c', Cache.get addr s
                   = Ret false {| super := c';
                                  displacement_strategy := displacement_strategy s;
                                  cache := <[line_number := stamp]> (cache s);
                                  used_size := used_size s + 1;
                                  last_replaced := -1 |}
          /\ Cache.line_size c' = Cache.line_size (super s)
          /\ Cache.blocks c' = Cache.blocks (super s)
          /\ Cache.requests c' = stamp
          /\ Cache.history c' = <[line_number := stamp]> (Cache.history (super s))
      else
        match displacement_strategy s (cache s) with
        | None => Cache.get addr s = Raise IndexError s
        | Some victim =>
            match cache s !! victim with
            | None =>
                Cache.get addr s
                = Raise KeyError
                    {| super := Cache.set_history
                                  (<[victim := stamp]> (Cache.history (super s)))
                                  (super s);
                       displacement_strategy := displacement_strategy s;
                       cache := cache s;
                       used_size := used_size s;
                       last_replaced := victim |}
            | Some _ =>
                exists c', Cache.get addr s
                           = Ret false {| super := c';
                                          displacement_strategy := displacement_strategy s;
                                          cache := <[line_number := stamp]>
                                                     (delete victim (cache s));
                                          used_size := used_size s;
                                          last_replaced := victim |}
                  /\ Cache.line_size c' = Cache.line_size (super s)
                  /\ Cache.blocks c' = Cache.blocks (super s)
                  /\ Cache.requests c' = stamp
                  /\ Cache.history c'
                     = <[line_number := stamp]>
                         (<[victim := stamp]> (Cache.history (super s)))
            end
        end
  end.
Proof.
  intros Hls line_number stamp.
  destruct (get_cases addr s) as [[Hz _]|[_ Hg]]; [contradiction|].
  simpl in Hg. fold line_number in Hg.
  destruct (cache s !! line_number) as [t0|] eqn:Hres.
  - rewrite in_cache_hit in Hg by eauto.
    pose proof (bookkeeping_static true line_number (super s)) as Hst.
    destruct (Cache.history (super s) !! line_number) as [h|] eqn:Hh.
    + destruct (bookkeeping_hit line_number h (super s) Hh) as (c' & Hb & Hr & _ & Hy & _).
      rewrite Hb in Hg, Hst. simpl in Hst. exists c'. tauto.
    + destruct (Cache.bookkeeping true line_number (super s)) as [v c'|e c'] eqn:Hb.
      * exfalso. revert Hb.
        unfold Cache.bookkeeping, bind, modify, gets, ret, from_option, raise. simpl.
        rewrite Hh. discriminate.
      * revert Hb.
        unfold Cache.bookkeeping, bind, modify, gets, ret, from_option, raise. simpl.
        rewrite Hh. intros [= <- <-]. eauto.
  - case_decide as Hcap.
    + rewrite (in_cache_under_capacity _ _ Hres Hcap) in Hg. simpl in Hg.
      destruct (bookkeeping_miss line_number (super s)) as (c' & Hb & Hr & _ & Hy & _).
      pose proof (bookkeeping_static false line_number (super s)) as Hst.
      rewrite Hb in Hg, Hst. simpl in Hst. exists c'. tauto.
    + destruct (displacement_strategy s (cache s)) as [victim|] eqn:Hstrat.
      * destruct (cache s !! victim) as [tv|] eqn:Hv.
        -- rewrite (in_cache_at_capacity _ _ _ Hres Hcap Hstrat) in Hg by eauto.
           simpl in Hg.
           match type of Hg with context [Cache.bookkeeping false ?l ?c] =>
             destruct (bookkeeping_miss l c) as (c' & Hb & Hr & _ & Hy & _);
             pose proof (bookkeeping_static false l c) as Hst end.
           rewrite Hb in Hg, Hst. simpl in Hst, Hr, Hy. exists c'. tauto.
        -- rewrite (in_cache_foreign_victim _ _ _ Hres Hcap Hstrat Hv) in Hg. exact Hg.
      * rewrite (in_cache_no_victim _ _ Hres Hcap Hstrat) in Hg. exact Hg.
Qed.

Lemma init_assoc_ok (line_size size : Z) (strategy : displacement) (s : t) :
  __init__ line_size size strategy = inr s ->
  assoc_ok s /\ Cache.line_size (super s) = line_size
  /\ Cache.blocks (super s) = size / line_size
  /\ displacement_strategy s = strategy.
Proof.
  unfold __init__, Cache.__init__. case_decide; [discriminate|].
  intros [= <-]. unfold assoc_ok. simpl. repeat split; try assumption; try lia.
  intros l [x Hx]. rewrite lookup_empty in Hx. discriminate.
Qed.

Lemma get_assoc_ok (addr : Z) (s : t) :
  assoc_ok s ->
  let s' := state_of (Cache.get addr s) in
  assoc_ok s' /\ displacement_strategy s' = displacement_strategy s.
Proof.
  intros (Hls & Hused & Hcap & Hhist).
  pose proof (get_assoc addr s Hls) as Hg. simpl in Hg.
  set (line_number := addr / Cache.line_size (super s)) in *.
  destruct (cache s !! line_number) as [t0|] eqn:Hres.
  - destruct (Hhist line_number) as [h Hh]; [eauto|]. rewrite Hh in Hg.
    destruct Hg as (c' & -> & Hl & Hb & _ & Hy). simpl.
    unfold assoc_ok. simpl. rewrite Hl, Hb, Hy. auto.
  - case_decide as Hroom.
    + destruct Hg as (c' & -> & Hl & Hb & _ & Hy). simpl.
      unfold assoc_ok. simpl. rewrite Hl, Hb, Hy.
      rewrite map_size_insert_None by assumption.
      repeat split; try assumption; try lia.
      intros l. rewrite !lookup_insert. case_decide; eauto.
    + destruct (displacement_strategy s (cache s)) as [victim|] eqn:Hstrat.
      * destruct (cache s !! victim) as [tv|] eqn:Hv.
        -- destruct Hg as (c' & -> & Hl & Hb & _ & Hy). simpl.
           unfold assoc_ok. simpl. rewrite Hl, Hb, Hy.
           rewrite map_size_insert_None by (rewrite lookup_delete_ne; congruence).
           pose proof (map_size_delete_Some victim (cache s) (ex_intro _ tv Hv)) as Hd.
           assert (size (cache s) <> 0%nat).
           { intros Hz. apply map_size_empty_inv in Hz. rewrite Hz, lookup_empty in Hv.
             discriminate. }
           repeat split; try assumption; try lia.
           intros l. rewrite !lookup_insert. case_decide; [eauto|].
           rewrite lookup_delete. case_decide; [intros [? [=]]|apply Hhist].
        -- rewrite Hg. simpl. unfold assoc_ok. simpl. repeat split; try assumption.
           intros l Hl. rewrite lookup_insert. case_decide; eauto.
      * rewrite Hg. simpl. unfold assoc_ok. auto.
Qed.

Lemma run_assoc_ok (trace : list Z) (s : t) :
  assoc_ok s ->
  assoc_ok (Cache.run trace s)
  /\ displacement_strategy (Cache.run trace s) = displacement_strategy s.
Proof.
  revert s. induction trace as [|a tr IH]; intros s Hok; simpl; [auto|].
  destruct (get_assoc_ok a s Hok) as [Hok1 Hs1].
  destruct (IH _ Hok1) as [Hok2 Hs2]. split; [assumption|congruence].
Qed.

(** X9.  Whatever the displacement strategy and whatever [get] calls were
    made, returning or raising: [used_size] is the number of resident
    lines, it never exceeds [blocks], and every resident line has a
    [history] entry. *)
Theorem resident_lines_bounded (line_size total_size : Z) (strategy : displacement)
        (init : t) (trace : list Z) :
  __init__ line_size total_size strategy = inr init ->
  let s := Cache.run trace init in
  used_size s = Z.of_nat (size (cache s))
  /\ used_size s <= Z.max 0 (total_size / line_size)
  /\ forall l, is_Some (cache s !! l) -> is_Some (Cache.history (super s) !! l).
Proof.
  intros Hinit s.
  destruct (init_assoc_ok _ _ _ _ Hinit) as (Hok & _ & Hbl & _).
  destruct (run_assoc_ok trace init Hok) as ((_ & H1 & H2 & H3) & _). fold s in H1, H2, H3.
  pose proof (run_base_static trace init) as (_ & _ & Hb). simpl in Hb. fold s in Hb.
  rewrite Hb, Hbl in H2. auto.
Qed.

(** X10.  A [get] call that hits changes nothing but the counters and the
    hit stream: the line was resident, and the resident mapping with its
    timestamps, [used_size], [last_replaced] and [history] stay as they
    were (a hit does not renew the timestamp the oldest strategy sorts
    by). *)
Theorem hit_keeps_timestamps (addr : Z) (s s' : t) :
  Cache.get addr s = Ret true s' ->
  is_Some (cache s !! (addr / Cache.line_size (super s)))
  /\ cache s' = cache s
  /\ used_size s' = used_size s
  /\ last_replaced s' = last_replaced s
  /\ Cache.history (super s') = Cache.history (super s).
Proof.
  intros Hg.
  destruct (decide (Cache.line_size (super s) = 0)) as [Hz|Hls].
  { destruct (get_cases addr s) as [[_ Hr]|[Hnz _]]; [congruence|contradiction]. }
  pose proof (get_assoc addr s Hls) as Hc. simpl in Hc.
  destruct (cache s !! (addr / Cache.line_size (super s))) as [t0|].
  - destruct (Cache.history (super s) !! _) as [h|].
    + destruct Hc as (c' & Hc & _ & _ & _ & Hy). rewrite Hc in Hg. injection Hg as <-.
      simpl. eauto 10.
    + destruct Hc as (c' & Hc). congruence.
  - case_decide.
    + destruct Hc as (c' & Hc & _). congruence.
    + destruct (displacement_strategy s (cache s)) as [victim|]; [|congruence].
      destruct (cache s !! victim); [|congruence].
      destruct Hc as (c' & Hc & _). congruence.
Qed.

(** X11.  With a strategy that names a resident line whenever one is
    resident, a cache of at least one block never raises: every [get]
    returns, and afterwards the line is resident, stamped with the
    current [requests] when the access missed. *)
Theorem get_returns_and_loads (line_size size : Z) (strategy : displacement)
        (init : t) (trace : list Z) (addr : Z) :
  __init__ line_size size strategy = inr init ->
  chooses_resident strategy ->
  finds_victim strategy ->
  0 < size / line_size ->
  exists verdict s',
    Cache.get addr (Cache.run trace init) = Ret verdict s'
    /\ is_Some (cache s' !! (addr / line_size))
    /\ (verdict = false ->
        cache s' !! (addr / line_size) = Some (Cache.requests (super s'))).
Proof.
  intros Hinit Hsound Htotal Hpos.
  destruct (init_assoc_ok _ _ _ _ Hinit) as (Hok0 & Hls0 & Hbl0 & Hst0).
  destruct (run_assoc_ok trace init Hok0) as (Hok & Hst).
  pose proof (run_base_static trace init) as (Hl & _ & Hb). simpl in Hl, Hb.
  set (s := Cache.run trace init) in *.
  rewrite Hls0 in Hl. rewrite Hbl0 in Hb. rewrite Hst0 in Hst.
  destruct Hok as (Hls & Hused & Hcap & Hhist).
  pose proof (get_assoc addr s Hls) as Hc. simpl in Hc. rewrite Hl in Hc.
  destruct (cache s !! (addr / line_size)) as [t0|] eqn:Hres.
  - destruct (Hhist (addr / line_size)) as [h Hh]; [eauto|]. rewrite Hh in Hc.
    destruct Hc as (c' & Hc & _). exists true, (set_super c' s).
    split; [assumption|]. simpl. rewrite Hres. split; [eauto|discriminate].
  - case_decide as Hroom.
    + destruct Hc as (c' & Hc & _ & _ & Hr & _). eexists false, _.
      split; [exact Hc|]. simpl. rewrite lookup_insert_eq, Hr. eauto.
    + assert (Hne : cache s <> ∅).
      { intros He. rewrite He, map_size_empty in Hused. lia. }
      destruct (Htotal _ Hne) as [victim Hv]. rewrite Hst, Hv in Hc.
      destruct (Hsound _ _ Hv) as [tv Htv]. rewrite Htv in Hc.
      destruct Hc as (c' & Hc & _ & _ & Hr & _). eexists false, _.
      split; [exact Hc|]. simpl. rewrite lookup_insert_eq, Hr. eauto.
Qed.
End MoreFullyAssociativeCacheFacts.

Section MoreDisplacementFacts.
Variable iteritems : gmap Z Z -> list (Z * Z).
Variable choice : list Z -> option Z.
Hypothesis iteritems_perm : forall m, iteritems m ≡ₚ map_to_list m.
Hypothesis choice_elem : forall l x, choice l = Some x -> x ∈ l.

Lemma iteritems_empty : iteritems ∅ = [].
Proof. apply Permutation_nil_r. rewrite iteritems_perm, map_to_list_empty. reflexivity. Qed.

Lemma oldest_displacement_empty : oldest_displacement iteritems ∅ = None.
Proof. unfold oldest_displacement. rewrite iteritems_empty. reflexivity. Qed.

Lemma oldest_chooses_resident : chooses_resident (oldest_displacement iteritems).
Proof.
  intros m v Hv. destruct (decide (m = ∅)) as [->|Hne].
  - rewrite oldest_displacement_empty in Hv. discriminate.
  - destruct (oldest_displacement_min iteritems iteritems_perm m Hne)
      as (v' & stamp & Hv' & Hs & _).
    rewrite Hv in Hv'. injection Hv' as <-. eauto.
Qed.

Lemma oldest_finds_victim : finds_victim (oldest_displacement iteritems).
Proof.
  intros m Hne.
  destruct (oldest_displacement_min iteritems iteritems_perm m Hne) as (v & _ & -> & _).
  eauto.
Qed.

(** X12.  Both strategies only ever evict a resident line, whatever order
    the dictionary iterates in and whichever element [random.choice]
    picks; the oldest strategy finds a victim exactly when a line is
    resident, and its victim has the smallest timestamp. *)
Theorem strategies_evict_residents (m : gmap Z Z) (victim : Z) :
  (oldest_displacement iteritems m = Some victim ->
     exists stamp, m !! victim = Some stamp
                   /\ forall l t, m !! l = Some t -> stamp <= t)
  /\ (random_displacement iteritems choice m = Some victim -> is_Some (m !! victim))
  /\ (oldest_displacement iteritems m = None <-> m = ∅).
Proof.
  split; [|split].
  - intros Hv. destruct (decide (m = ∅)) as [->|Hne].
    + rewrite oldest_displacement_empty in Hv. discriminate.
    + destruct (oldest_displacement_min iteritems iteritems_perm m Hne)
        as (v' & stamp & Hv' & Hs & Hmin).
      rewrite Hv in Hv'. injection Hv' as <-. eauto.
  - unfold random_displacement. intros Hv. apply choice_elem in Hv.
    apply list_elem_of_fmap in Hv as ([v t] & -> & Hin). simpl.
    rewrite iteritems_perm in Hin. apply elem_of_map_to_list in Hin. eauto.
  - split.
    + intros Hn. destruct (decide (m = ∅)) as [|Hne]; [assumption|].
      destruct (oldest_finds_victim m Hne) as [v Hv]. congruence.
    + intros ->. apply oldest_displacement_empty.
Qed.
End MoreDisplacementFacts.

Module EmptyAssociativeCacheFacts.
Import FullyAssociativeCache.
Import CacheFacts.
Import MoreFullyAssociativeCacheFacts.

(** X13.  A fully associative cache without a block and the oldest
    strategy serves nothing: every [get] raises [IndexError] and leaves
    the cache exactly as constructed. *)
Theorem no_block_raises_index_error
        (iteritems : gmap Z Z -> list (Z * Z)) (line_size size : Z) (init : t)
        (trace : list Z) (addr : Z) :
  (forall m, iteritems m ≡ₚ map_to_list m) ->
  __init__ line_size size (oldest_displacement iteritems) = inr init ->
  size / line_size <= 0 ->
  Cache.run trace init = init
  /\ Cache.get addr init = Raise IndexError init.
Proof.
  intros Hperm Hinit Hb.
  assert (Hget : forall a, Cache.get a init = Raise IndexError init).
  { intros a. destruct (init_assoc_ok _ _ _ _ Hinit) as ((Hls & _) & _ & Hbl & Hst).
    assert (Hc0 : cache init = ∅ /\ used_size init = 0).
    { revert Hinit. clear. unfold __init__, Cache.__init__. case_decide; [discriminate|].
      intros [= <-]. auto. }
    pose proof (get_assoc a init Hls) as Hc. simpl in Hc.
    destruct Hc0 as [Hc0 Hu0]. rewrite Hc0, lookup_empty, Hu0, Hbl, Hst in Hc.
    rewrite decide_False in Hc by lia.
    rewrite (oldest_displacement_empty iteritems Hperm) in Hc. exact Hc. }
  split; [|apply Hget].
  induction trace as [|a tr IH]; simpl; [reflexivity|]. rewrite Hget. exact IH.
Qed.
End EmptyAssociativeCacheFacts.

(** ** More on SetAssociativeCache *)

Module MoreSetAssociativeCacheFacts.
Import SetAssociativeCache.
Import CacheFacts.
Import SetAssociativeCacheFacts.



(** X15.  The set number divides the line number by [sets_block_size],
    a count of bytes: every line below [sets_block_size] belongs to set
    0, so an access to such a line leaves all other sets alone. *)
Theorem low_lines_use_set_zero (line_size total_size : Z) (strategy : displacement)
        (amount : Z) (init : t) (trace : list Z) (addr : Z) :
  __init__ line_size total_size strategy amount = inr init ->
  0 < amount ->
  0 <= addr / line_size < total_size / amount ->
  let s := Cache.run trace init in
  owner s addr = Some 0%nat
  /\ forall i, i <> 0%nat ->
       cache (state_of (Cache.get addr s)) !! i = cache s !! i.
Proof.
  intros Hinit Ha Hline s.
  destruct (init_spec _ _ _ _ _ Hinit) as (Hok & _ & Hls & Hsbs & Hsa).
  pose proof (@run_valid t _ sets_lawful trace init Hok) as (Hnz & Hlen & _).
  fold s in Hnz, Hlen.
  destruct (run_static trace init) as [Hsbs' Hsa']. fold s in Hsbs', Hsa'.
  pose proof (run_base_static trace init) as (Hls' & _). simpl in Hls'. fold s in Hls'.
  rewrite Hls in Hls'. rewrite Hsbs in Hsbs'. rewrite Hsa in Hsa'.
  assert (Hown : owner s addr = Some 0%nat).
  { unfold owner. rewrite Hls', Hsbs', Hsa'.
    rewrite decide_False by (rewrite <- Hls'; assumption).
    rewrite decide_False by lia. rewrite decide_False by lia.
    rewrite Z.div_small by assumption. rewrite Z.mod_0_l by lia.
    rewrite list_index_nonneg by lia. reflexivity. }
  split; [assumption|].
  destruct (get_changes addr s) as (_ & _ & _ & Hother).
  intros i Hi. apply Hother. rewrite Hown. congruence.
Qed.

(** X16.  A hit is not silent in a set-associative cache: [last_replaced]
    of the owning set still names the victim of that set's latest
    eviction, and the outer [history] entry of that victim is stamped
    again, with [requests + 1]. *)
Theorem hit_restamps_last_victim (addr : Z) (s : t) (n : nat)
        (inner : FullyAssociativeCache.t) (h hi lr : Z) :
  sets_ok s ->
  owner s addr = Some n ->
  cache s !! n = Some inner ->
  let line_number := addr / Cache.line_size (super s) in
  is_Some (FullyAssociativeCache.cache inner !! line_number) ->
  Cache.history (FullyAssociativeCache.super inner) !! line_number = Some hi ->
  Cache.history (super s) !! line_number = Some h ->
  FullyAssociativeCache.last_replaced inner = lr ->
  lr <> -1 ->
  exists s',
    Cache.get addr s = Ret true s'
    /\ Cache.history (super s')
       = <[lr := Cache.requests (super s) + 1]> (Cache.history (super s))
    /\ Cache.hits (super s') = Cache.hits (super s) + 1.
Proof.
  intros (Hls & Hlen & Hin) Hown Hn line_number [t0 Hres] Hhi Hh Hlr Hne.
  destruct (get_cases addr s) as [[Hz _]|[_ Hg]]; [contradiction|].
  simpl in Hg. fold line_number in Hg.
  destruct (sets_in_cache_cases line_number s) as [[_ Hnone]|(n' & inner' & Hown' & Hn' & Hc)].
  { destruct (Hnone addr eq_refl Hls) as [Ho|(k & Ho & Hk)]; congruence. }
  specialize (Hown' addr eq_refl Hls). rewrite Hown in Hown'. injection Hown' as <-.
  rewrite Hn in Hn'. injection Hn' as <-. simpl in Hc.
  pose proof (Hin _ _ Hn) as Hlsi.
  assert (Hlsi' : Cache.line_size (FullyAssociativeCache.super inner) <> 0) by congruence.
  pose proof (MoreFullyAssociativeCacheFacts.get_assoc
                (line_number * Cache.line_size (super s)) inner Hlsi') as Hi.
  simpl in Hi. rewrite Hlsi, Z.div_mul in Hi by assumption.
  rewrite Hres, Hhi in Hi. destruct Hi as (c' & Hi & _).
  rewrite Hi in Hc. simpl in Hc. rewrite Hlr in Hc.
  rewrite decide_True in Hc by assumption.
  rewrite Hc in Hg. simpl in Hg.
  assert (Hh' : is_Some (<[lr := Cache.requests (super s) + 1]> (Cache.history (super s))
                           !! line_number)).
  { rewrite lookup_insert. case_decide; eauto. }
  destruct Hh' as [h' Hh'].
  match type of Hg with context [Cache.bookkeeping true ?l ?c] =>
    destruct (bookkeeping_hit l h' c Hh') as (c1 & Hb & _ & Hhits & Hy & _) end.
  rewrite Hb in Hg. eexists. split; [exact Hg|]. simpl. rewrite Hy, Hhits. auto.
Qed.
End MoreSetAssociativeCacheFacts.

(** ** Memory, matrices and the whole run *)

Module EndToEndFacts.
Import Cache.
Import CacheFacts.
Import FloatFacts.

(** X17.  Matrices allocated one after the other from the same memory lie
    back to back: each starts where the memory stood, the memory advances
    by [size_t * n * n], and with a positive element size distinct
    elements, of one matrix or of both, are at least an element apart. *)
Theorem matrices_back_to_back (element_size n : Z) (mem mem1 mem2 : Memory.t)
        (a b : Matrix.t) :
  0 < element_size ->
  Matrix.__init__ element_size n mem = Ret a mem1 ->
  Matrix.__init__ element_size n mem1 = Ret b mem2 ->
  Matrix.base a = Memory.base mem
  /\ Matrix.base b = Matrix.base a + element_size * (n * n)
  /\ Memory.base mem2 = Memory.base mem + 2 * (element_size * (n * n))
  /\ (forall p q, p < q ->
        Matrix.get_addr a p + element_size <= Matrix.get_addr a q)
  /\ (forall p q, p < n * n -> 0 <= q ->
        Matrix.get_addr a p + element_size <= Matrix.get_addr b q).
Proof.
  intros Hes. unfold Matrix.__init__, Memory.allocate, bind, ret. simpl.
  intros [= <- <-] [= <- <-]. unfold Matrix.get_addr. simpl.
  repeat split; try lia; intros p q Hp; nia.
Qed.

Lemma for_each_get_run {T : Type} `{Organisation T} (trace : list Z) (s s' : T) :
  for_each (fun addr => get addr ;; ret tt) trace s = Ret tt s' -> s' = run trace s.
Proof.
  revert s. induction trace as [|a tr IH]; intros s; simpl.
  - intros [= <-]. reflexivity.
  - unfold bind at 1 2, ret at 1.
    destruct (get a s) as [v s1|e s1] eqn:Hg; [|discriminate]. simpl. apply IH.
Qed.



Lemma bind_raise_eq {S A B} (m : M S A) (k : A -> M S B) (s s' : S) (e : exn) :
  m s = Raise e s' -> bind m k s = Raise e s'.
Proof. intros Hm. unfold bind. rewrite Hm. reflexivity. Qed.


End EndToEndFacts.

(** ** The theorems at work on the example objects *)

Module Examples.
Import CacheFacts.
Import DirectCacheFacts.
Import FullyAssociativeCacheFacts.
Import SetAssociativeCacheFacts.

Lemma get_hit_stat_division_witness :
  Z.abs (Cache.requests example_counts - Cache.hits example_counts) < float_overflow
  /\ Z.abs (Cache.requests example_counts) < float_overflow
  /\ Cache.requests example_counts <> 0
  /\ exists m r,
       float_of_int (Cache.requests example_counts - Cache.hits example_counts) = Some m
       /\ float_of_int (Cache.requests example_counts) = Some r
       /\ Cache.get_hit_stat example_counts
          = Ret {| Cache.stat_requests := Cache.requests example_counts;
                   Cache.stat_hits := Cache.hits example_counts;
                   Cache.stat_misses :=
                     Cache.requests example_counts - Cache.hits example_counts;
                   Cache.stat_miss_chance := float_div m r |} example_counts.
Proof.
  assert (H1 : Z.abs (Cache.requests example_counts - Cache.hits example_counts)
               < float_overflow) by reflexivity.
  assert (H2 : Z.abs (Cache.requests example_counts) < float_overflow) by reflexivity.
  assert (H3 : Cache.requests example_counts <> 0) by discriminate.
  repeat (split; [assumption|]).
  apply (proj2 (proj2 (get_hit_stat_division example_counts)) H1 H2 H3).
Defined.

(** C8 as stated fails twice over.  With three requests and two hits the
    returned [miss_chance] is the double nearest one third, not the
    quotient [misses / requests]; and with [requests = 2^1024], which is
    positive, nothing is returned: the conversion to float raises
    [OverflowError]. *)
Lemma get_hit_stat_rounds_and_overflows :
  (exists stat,
     Cache.get_hit_stat example_counts = Ret stat example_counts
     /\ ~ (double_value (Cache.stat_miss_chance stat)
           == inject_Z (Cache.stat_misses stat) / inject_Z (Cache.stat_requests stat))%Q)
  /\ 0 < Cache.requests example_huge
  /\ Cache.get_hit_stat example_huge = Raise OverflowError example_huge.
Proof.
  split; [|split; reflexivity].
  eexists. split; [reflexivity|]. intros H. vm_compute in H. discriminate H.
Qed.

Lemma get_miss_sample_witness :
  Cache.valid example_direct
  /\ Cache.get 130 example_direct = Ret false (state_of (Cache.get 130 example_direct))
  /\ Cache.requests (Cache.base (state_of (Cache.get 130 example_direct)))
     = Cache.requests (Cache.base example_direct) + 1
  /\ Cache.miss_stream (Cache.base (state_of (Cache.get 130 example_direct)))
     = Cache.miss_stream (Cache.base example_direct) ++
       [match Cache.history (Cache.base example_direct)
              !! (130 / Cache.line_size (Cache.base example_direct)) with
        | None => -1
        | Some h => Cache.requests (Cache.base example_direct) + 1 - h
        end]
  /\ Cache.hit_stream (Cache.base (state_of (Cache.get 130 example_direct)))
     = Cache.hit_stream (Cache.base example_direct)
  /\ Cache.history (Cache.base (state_of (Cache.get 130 example_direct)))
       !! (130 / Cache.line_size (Cache.base example_direct))
     = Some (Cache.requests (Cache.base example_direct) + 1).
Proof.
  split; [exact I|]. split; [vm_compute; reflexivity|].
  apply (get_miss_sample 130 example_direct (state_of (Cache.get 130 example_direct))).
  - exact I.
  - vm_compute. reflexivity.
Defined.

Lemma flushed_sample_count_witness :
  Cache.fresh (Cache.base example_direct)
  /\ for_each (fun addr => Cache.get addr ;; ret tt) [0; 64; 0] example_direct
     = Ret tt (Cache.run [0; 64; 0] example_direct)
  /\ exists stat s',
       (Cache.inherited (Cache.flush true) ;; Cache.inherited (Cache.flush false) ;;
        Cache.inherited Cache.get_extended_stat) (Cache.run [0; 64; 0] example_direct)
       = Ret stat s'
       /\ Cache.total_samples stat = Cache.requests (Cache.base s')
       /\ Cache.requests (Cache.base s') = Z.of_nat (length [0; 64; 0]).
Proof.
  split; [repeat split|]. split; [vm_compute; reflexivity|].
  apply (flushed_sample_count [0; 64; 0] example_direct).
  - repeat split.
  - vm_compute. reflexivity.
Defined.


Lemma in_cache_miss_witness :
  FullyAssociativeCache.cache example_full !! 2 = None
  /\ ~ (FullyAssociativeCache.used_size example_full
        < Cache.blocks (FullyAssociativeCache.super example_full))
  /\ FullyAssociativeCache.displacement_strategy example_full
       (FullyAssociativeCache.cache example_full) = Some 0
  /\ is_Some (FullyAssociativeCache.cache example_full !! 0)
  /\ FullyAssociativeCache._in_cache 2 example_full
     = Ret false
         {| FullyAssociativeCache.super :=
              Cache.set_history
                (<[0 := Cache.requests (FullyAssociativeCache.super example_full) + 1]>
                   (Cache.history (FullyAssociativeCache.super example_full)))
                (FullyAssociativeCache.super example_full);
            FullyAssociativeCache.displacement_strategy :=
              FullyAssociativeCache.displacement_strategy example_full;
            FullyAssociativeCache.cache :=
              <[2 := Cache.requests (FullyAssociativeCache.super example_full) + 1]>
                (delete 0 (FullyAssociativeCache.cache example_full));
            FullyAssociativeCache.used_size :=
              FullyAssociativeCache.used_size example_full;
            FullyAssociativeCache.last_replaced := 0 |}.
Proof.
  assert (Hres : FullyAssociativeCache.cache example_full !! 2 = None)
    by (vm_compute; reflexivity).
  assert (Hcap : ~ (FullyAssociativeCache.used_size example_full
                    < Cache.blocks (FullyAssociativeCache.super example_full)))
    by (vm_compute; discriminate).
  assert (Hstrat : FullyAssociativeCache.displacement_strategy example_full
                     (FullyAssociativeCache.cache example_full) = Some 0)
    by (vm_compute; reflexivity).
  assert (Hvic : is_Some (FullyAssociativeCache.cache example_full !! 0))
    by (exists 1; vm_compute; reflexivity).
  split; [exact Hres|]. split; [exact Hcap|]. split; [exact Hstrat|].
  split; [exact Hvic|].
  apply (proj2 (in_cache_miss 2 example_full Hres) Hcap 0 Hstrat Hvic).
Defined.

Lemma oldest_evicts_smallest_timestamp_witness :
  (forall m : gmap Z Z, map_to_list m ≡ₚ map_to_list m)
  /\ FullyAssociativeCache.__init__ 64 128 (oldest_displacement map_to_list)
     = inr example_assoc
  /\ 0 < 128 / 64
  /\ Z.of_nat (length [70; 0]) = 128 / 64
  /\ NoDup ((fun a => a / 64) <$> [70; 0])
  /\ (130 / 64 ∉ ((fun a => a / 64) <$> [70; 0]))
  /\ exists victim stamp s',
       Cache.get 130 (Cache.run [70; 0] example_assoc) = Ret false s'
       /\ FullyAssociativeCache.last_replaced s' = victim
       /\ (forall l, is_Some (FullyAssociativeCache.cache
                                (Cache.run [70; 0] example_assoc) !! l)
                     <-> l ∈ (fun a => a / 64) <$> [70; 0])
       /\ FullyAssociativeCache.cache (Cache.run [70; 0] example_assoc) !! victim
          = Some stamp
       /\ (forall l t, FullyAssociativeCache.cache (Cache.run [70; 0] example_assoc) !! l
                       = Some t -> stamp <= t)
       /\ FullyAssociativeCache.cache s'
          = <[130 / 64 := Cache.requests (FullyAssociativeCache.super
                                            (Cache.run [70; 0] example_assoc)) + 1]>
              (delete victim (FullyAssociativeCache.cache
                                (Cache.run [70; 0] example_assoc)))
       /\ head ((fun a => a / 64) <$> [70; 0]) = Some victim.
Proof.
  assert (Hperm : forall m : gmap Z Z, map_to_list m ≡ₚ map_to_list m)
    by (intros m; reflexivity).
  assert (Hnd : NoDup ((fun a => a / 64) <$> [70; 0])) by (vm_compute; compute_done).
  assert (Hnew : 130 / 64 ∉ ((fun a => a / 64) <$> [70; 0]))
    by (apply (bool_decide_eq_true_1 _); vm_compute; reflexivity).
  split; [exact Hperm|]. split; [reflexivity|]. split; [reflexivity|].
  split; [reflexivity|]. split; [exact Hnd|]. split; [exact Hnew|].
  apply (oldest_evicts_smallest_timestamp map_to_list 64 128 example_assoc [70; 0] 130
           Hperm eq_refl eq_refl eq_refl Hnd Hnew).
Defined.

Lemma other_sets_unchanged_witness :
  SetAssociativeCache.__init__ 64 256 example_oldest 2 = inr example_sets
  /\ length (SetAssociativeCache.cache
               (state_of (Cache.get 0 (Cache.run [0; 8192; 64] example_sets))))
     = length (SetAssociativeCache.cache (Cache.run [0; 8192; 64] example_sets))
  /\ forall i, Z.of_nat i <> (0 / 64 / (256 / 2)) mod 2 ->
       SetAssociativeCache.cache
         (state_of (Cache.get 0 (Cache.run [0; 8192; 64] example_sets))) !! i
       = SetAssociativeCache.cache (Cache.run [0; 8192; 64] example_sets) !! i.
Proof.
  split; [vm_compute; reflexivity|].
  apply (other_sets_unchanged 64 256 example_oldest 2 example_sets [0; 8192; 64] 0).
  vm_compute. reflexivity.
Defined.

Lemma slot_invariant_witness :
  0 <= 128 / 64
  /\ DirectCache.__init__ 64 128 = inr example_direct
  /\ Cache.blocks (DirectCache.super (Cache.run [0; 64; 130] example_direct)) = 128 / 64
  /\ Z.of_nat (length (DirectCache.cache (Cache.run [0; 64; 130] example_direct)))
     = Cache.blocks (DirectCache.super (Cache.run [0; 64; 130] example_direct))
  /\ forall n v,
       DirectCache.cache (Cache.run [0; 64; 130] example_direct) !! n = Some v ->
       v = -1
       \/ v mod Cache.blocks (DirectCache.super (Cache.run [0; 64; 130] example_direct))
          = Z.of_nat n.
Proof.
  split; [discriminate|]. split; [reflexivity|].
  apply (slot_invariant 64 128 example_direct [0; 64; 130]); [discriminate|reflexivity].
Defined.

Lemma repeated_access_hits_witness :
  DirectCache.__init__ 64 128 = inr example_direct
  /\ Cache.get 130 (Cache.run [0; 64] example_direct)
     = Ret false (state_of (Cache.get 130 (Cache.run [0; 64] example_direct)))
  /\ (forall x, x ∈ [64; 140] ->
        x / 64 = 130 / 64 \/ (x / 64) mod (128 / 64) <> (130 / 64) mod (128 / 64))
  /\ 150 / 64 = 130 / 64
  /\ exists s3,
       Cache.get 150
         (Cache.run [64; 140] (state_of (Cache.get 130 (Cache.run [0; 64] example_direct))))
       = Ret true s3.
Proof.
  assert (Hg : Cache.get 130 (Cache.run [0; 64] example_direct)
               = Ret false (state_of (Cache.get 130 (Cache.run [0; 64] example_direct))))
    by (vm_compute; reflexivity).
  assert (Hmid : forall x, x ∈ [64; 140] ->
            x / 64 = 130 / 64 \/ (x / 64) mod (128 / 64) <> (130 / 64) mod (128 / 64)).
  { intros x Hx. apply elem_of_cons in Hx as [->|Hx].
    - right. vm_compute. discriminate.
    - apply list_elem_of_singleton in Hx as ->. left. reflexivity. }
  split; [reflexivity|]. split; [exact Hg|]. split; [exact Hmid|]. split; [reflexivity|].
  apply (repeated_access_hits 64 128 example_direct [0; 64] [64; 140] 130 150 false _
           eq_refl Hg Hmid eq_refl).
Defined.
End Examples.

(** ** The further properties at work on the example objects *)

Module MoreExamples.
Import CacheFacts MoreCacheFacts HistogramFacts.
Import DirectCacheFacts MoreDirectCacheFacts.
Import FullyAssociativeCacheFacts MoreFullyAssociativeCacheFacts EmptyAssociativeCacheFacts.
Import SetAssociativeCacheFacts MoreSetAssociativeCacheFacts.
Import EndToEndFacts.

Lemma get_hit_sample_witness :
  Cache.get 70 (Cache.run [64] example_direct)
  = Ret true (state_of (Cache.get 70 (Cache.run [64] example_direct)))
  /\ exists s1 h,
       Cache._in_cache (70 / Cache.line_size (Cache.base (Cache.run [64] example_direct)))
                       (Cache.run [64] example_direct) = Ret true s1
       /\ Cache.history (Cache.base s1)
            !! (70 / Cache.line_size (Cache.base (Cache.run [64] example_direct))) = Some h
       /\ Cache.requests (Cache.base (state_of (Cache.get 70 (Cache.run [64] example_direct))))
          = Cache.requests (Cache.base (Cache.run [64] example_direct)) + 1
       /\ Cache.hits (Cache.base (state_of (Cache.get 70 (Cache.run [64] example_direct))))
          = Cache.hits (Cache.base (Cache.run [64] example_direct)) + 1
       /\ Cache.hit_stream (Cache.base (state_of (Cache.get 70 (Cache.run [64] example_direct))))
          = Cache.hit_stream (Cache.base (Cache.run [64] example_direct))
            ++ [Cache.requests (Cache.base (Cache.run [64] example_direct)) + 1 - h]
       /\ Cache.miss_stream (Cache.base (state_of (Cache.get 70 (Cache.run [64] example_direct))))
          = Cache.miss_stream (Cache.base (Cache.run [64] example_direct))
       /\ Cache.history (Cache.base (state_of (Cache.get 70 (Cache.run [64] example_direct))))
          = Cache.history (Cache.base s1).
Proof.
  assert (Hg : Cache.get 70 (Cache.run [64] example_direct)
               = Ret true (state_of (Cache.get 70 (Cache.run [64] example_direct))))
    by (vm_compute; reflexivity).
  split; [exact Hg|].
  exact (get_hit_sample 70 (Cache.run [64] example_direct) _ Hg).
Defined.

Lemma buffers_bounded_witness :
  new_cache (Cache.base example_direct)
  /\ Cache.in_cache_len (Cache.base (Cache.run [0; 64; 0] example_direct))
     = Z.of_nat (length (Cache.in_cache_history
                           (Cache.base (Cache.run [0; 64; 0] example_direct))))
  /\ Z.of_nat (length (Cache.in_cache_history
                         (Cache.base (Cache.run [0; 64; 0] example_direct)))) <= 10000
  /\ Cache.not_in_cache_len (Cache.base (Cache.run [0; 64; 0] example_direct))
     = Z.of_nat (length (Cache.not_in_cache_history
                           (Cache.base (Cache.run [0; 64; 0] example_direct))))
  /\ Z.of_nat (length (Cache.not_in_cache_history
                         (Cache.base (Cache.run [0; 64; 0] example_direct)))) <= 10000.
Proof.
  assert (Hnew : new_cache (Cache.base example_direct)) by (repeat split).
  split; [exact Hnew|].
  exact (buffers_bounded [0; 64; 0] example_direct Hnew).
Defined.

Lemma extended_stat_needs_flush_witness :
  new_cache (Cache.base example_direct)
  /\ Z.of_nat (length [0; 64; 0]) <= 10000
  /\ Cache.in_cache_file (Cache.base (Cache.run [0; 64; 0] example_direct)) = None
  /\ Cache.not_in_cache_file (Cache.base (Cache.run [0; 64; 0] example_direct)) = None
  /\ Cache.get_extended_stat (Cache.base (Cache.run [0; 64; 0] example_direct))
     = Raise IOError (Cache.base (Cache.run [0; 64; 0] example_direct)).
Proof.
  assert (Hnew : new_cache (Cache.base example_direct)) by (repeat split).
  assert (Hlen : Z.of_nat (length [0; 64; 0]) <= 10000) by discriminate.
  split; [exact Hnew|]. split; [exact Hlen|].
  exact (extended_stat_needs_flush [0; 64; 0] example_direct Hnew Hlen).
Defined.

Lemma get_extended_stat_histograms_witness :
  Cache.in_cache_file example_logged = Some [2; 1; 2; 2]
  /\ Cache.not_in_cache_file example_logged = Some [-1; -1; 3]
  /\ exists stat,
       Cache.get_extended_stat example_logged = Ret stat example_logged
       /\ histogram_of [2; 1; 2; 2] (Cache.stat_in_cache stat)
       /\ histogram_of [-1; -1; 3] (Cache.stat_not_in_cache stat).
Proof.
  split; [reflexivity|]. split; [reflexivity|].
  exact (get_extended_stat_histograms example_logged _ _ eq_refl eq_refl).
Defined.

Lemma get_raises_iff_no_block_witness :
  DirectCache.__init__ 64 32 = inr (DirectCache._post_init (Cache.mk 64 32 0 0 0 None 0 [] None 0 [] ∅))
  /\ ((exists e s',
         Cache.get 5 (Cache.run [0; 64]
                        (DirectCache._post_init (Cache.mk 64 32 0 0 0 None 0 [] None 0 [] ∅)))
         = Raise e s') <-> 32 / 64 <= 0)
  /\ (32 / 64 = 0 ->
      Cache.get 5 (Cache.run [0; 64]
                     (DirectCache._post_init (Cache.mk 64 32 0 0 0 None 0 [] None 0 [] ∅)))
      = Raise ZeroDivisionError
          (Cache.run [0; 64]
             (DirectCache._post_init (Cache.mk 64 32 0 0 0 None 0 [] None 0 [] ∅))))
  /\ (32 / 64 < 0 ->
      Cache.get 5 (Cache.run [0; 64]
                     (DirectCache._post_init (Cache.mk 64 32 0 0 0 None 0 [] None 0 [] ∅)))
      = Raise IndexError
          (Cache.run [0; 64]
             (DirectCache._post_init (Cache.mk 64 32 0 0 0 None 0 [] None 0 [] ∅)))).
Proof.
  split; [reflexivity|].
  exact (get_raises_iff_no_block 64 32 _ [0; 64] 5 eq_refl).
Defined.

Lemma first_access_to_sentinel_line_hits_witness :
  DirectCache.__init__ 64 128 = inr example_direct
  /\ 0 < 128 / 64
  /\ (-5) / 64 = -1
  /\ exists s',
       Cache.get (-5) example_direct = Ret true s'
       /\ Cache.hits (DirectCache.super s') = 1
       /\ Cache.requests (DirectCache.super s') = 1
       /\ Cache.hit_stream (DirectCache.super s') = [1]
       /\ DirectCache.cache s' = DirectCache.cache example_direct.
Proof.
  split; [reflexivity|]. split; [reflexivity|]. split; [reflexivity|].
  exact (first_access_to_sentinel_line_hits 64 128 example_direct (-5)
           eq_refl eq_refl eq_refl).
Defined.

Lemma hit_changes_no_slot_witness :
  DirectCache.slots_ok (Cache.run [64] example_direct)
  /\ Cache.get 70 (Cache.run [64] example_direct)
     = Ret true (state_of (Cache.get 70 (Cache.run [64] example_direct)))
  /\ DirectCache.cache (state_of (Cache.get 70 (Cache.run [64] example_direct)))
     = DirectCache.cache (Cache.run [64] example_direct)
  /\ Cache.history (DirectCache.super
                      (state_of (Cache.get 70 (Cache.run [64] example_direct))))
     = Cache.history (DirectCache.super (Cache.run [64] example_direct)).
Proof.
  assert (Hok : DirectCache.slots_ok (Cache.run [64] example_direct)).
  { apply run_slots_ok. apply (init_slots_ok 64 128). reflexivity. }
  assert (Hg : Cache.get 70 (Cache.run [64] example_direct)
               = Ret true (state_of (Cache.get 70 (Cache.run [64] example_direct))))
    by (vm_compute; reflexivity).
  split; [exact Hok|]. split; [exact Hg|].
  exact (hit_changes_no_slot 70 (Cache.run [64] example_direct) _ Hok Hg).
Defined.

Lemma same_slot_alternation_misses_witness :
  DirectCache.__init__ 64 128 = inr example_direct
  /\ 0 < 128 / 64
  /\ (forall l l', l ∈ (fun a => a / 64) <$> [0; 128; 256; 0] ->
                   l' ∈ (fun a => a / 64) <$> [0; 128; 256; 0] ->
                   l mod (128 / 64) = l' mod (128 / 64))
  /\ alternating ((fun a => a / 64) <$> [0; 128; 256; 0])
  /\ head ((fun a => a / 64) <$> [0; 128; 256; 0]) <> Some (-1)
  /\ Cache.hits (DirectCache.super (Cache.run [0; 128; 256; 0] example_direct)) = 0
  /\ Cache.requests (DirectCache.super (Cache.run [0; 128; 256; 0] example_direct))
     = Z.of_nat (length [0; 128; 256; 0]).
Proof.
  assert (Hslot : forall l l', l ∈ (fun a => a / 64) <$> [0; 128; 256; 0] ->
                               l' ∈ (fun a => a / 64) <$> [0; 128; 256; 0] ->
                               l mod (128 / 64) = l' mod (128 / 64)).
  { assert (Hall : forall l, l ∈ (fun a => a / 64) <$> [0; 128; 256; 0] ->
                             l mod (128 / 64) = 0).
    { intros l Hl. change ((fun a => a / 64) <$> [0; 128; 256; 0]) with [0; 2; 4; 0] in Hl.
      repeat (apply elem_of_cons in Hl as [->|Hl]; [reflexivity|]). inversion Hl. }
    intros l l' Hl Hl'. rewrite (Hall l Hl), (Hall l' Hl'). reflexivity. }
  assert (Halt : alternating ((fun a => a / 64) <$> [0; 128; 256; 0]))
    by (simpl; repeat split; discriminate).
  assert (Hhead : head ((fun a => a / 64) <$> [0; 128; 256; 0]) <> Some (-1))
    by discriminate.
  split; [reflexivity|]. split; [reflexivity|]. split; [exact Hslot|].
  split; [exact Halt|]. split; [exact Hhead|].
  exact (same_slot_alternation_misses 64 128 example_direct [0; 128; 256; 0]
           eq_refl eq_refl Hslot Halt Hhead).
Defined.

Lemma resident_lines_bounded_witness :
  FullyAssociativeCache.__init__ 64 128 example_oldest = inr example_assoc
  /\ FullyAssociativeCache.used_size (Cache.run [0; 64; 128] example_assoc)
     = Z.of_nat (size (FullyAssociativeCache.cache (Cache.run [0; 64; 128] example_assoc)))
  /\ FullyAssociativeCache.used_size (Cache.run [0; 64; 128] example_assoc)
     <= Z.max 0 (128 / 64)
  /\ forall l,
       is_Some (FullyAssociativeCache.cache (Cache.run [0; 64; 128] example_assoc) !! l) ->
       is_Some (Cache.history (FullyAssociativeCache.super
                                 (Cache.run [0; 64; 128] example_assoc)) !! l).
Proof.
  split; [reflexivity|].
  exact (resident_lines_bounded 64 128 example_oldest example_assoc [0; 64; 128] eq_refl).
Defined.

Lemma hit_keeps_timestamps_witness :
  Cache.get 70 example_full = Ret true (state_of (Cache.get 70 example_full))
  /\ is_Some (FullyAssociativeCache.cache example_full
                !! (70 / Cache.line_size (FullyAssociativeCache.super example_full)))
  /\ FullyAssociativeCache.cache (state_of (Cache.get 70 example_full))
     = FullyAssociativeCache.cache example_full
  /\ FullyAssociativeCache.used_size (state_of (Cache.get 70 example_full))
     = FullyAssociativeCache.used_size example_full
  /\ FullyAssociativeCache.last_replaced (state_of (Cache.get 70 example_full))
     = FullyAssociativeCache.last_replaced example_full
  /\ Cache.history (FullyAssociativeCache.super (state_of (Cache.get 70 example_full)))
     = Cache.history (FullyAssociativeCache.super example_full).
Proof.
  assert (Hg : Cache.get 70 example_full = Ret true (state_of (Cache.get 70 example_full)))
    by (vm_compute; reflexivity).
  split; [exact Hg|].
  exact (hit_keeps_timestamps 70 example_full _ Hg).
Defined.

Lemma get_returns_and_loads_witness :
  FullyAssociativeCache.__init__ 64 128 example_oldest = inr example_assoc
  /\ chooses_resident example_oldest
  /\ finds_victim example_oldest
  /\ 0 < 128 / 64
  /\ exists verdict s',
       Cache.get 200 (Cache.run [0; 64; 128] example_assoc) = Ret verdict s'
       /\ is_Some (FullyAssociativeCache.cache s' !! (200 / 64))
       /\ (verdict = false ->
           FullyAssociativeCache.cache s' !! (200 / 64)
           = Some (Cache.requests (FullyAssociativeCache.super s'))).
Proof.
  assert (Hperm : forall m : gmap Z Z, map_to_list m ≡ₚ map_to_list m)
    by (intros m; reflexivity).
  assert (H1 : chooses_resident example_oldest)
    by (exact (oldest_chooses_resident map_to_list Hperm)).
  assert (H2 : finds_victim example_oldest)
    by (exact (oldest_finds_victim map_to_list Hperm)).
  split; [reflexivity|]. split; [exact H1|]. split; [exact H2|]. split; [reflexivity|].
  exact (get_returns_and_loads 64 128 example_oldest example_assoc [0; 64; 128] 200
           eq_refl H1 H2 eq_refl).
Defined.

Lemma strategies_evict_residents_witness :
  (forall m : gmap Z Z, map_to_list m ≡ₚ map_to_list m)
  /\ (forall (l : list Z) (x : Z), head l = Some x -> x ∈ l)
  /\ (oldest_displacement map_to_list (<[5 := 2]> {[7 := 1]}) = Some 7 ->
      exists stamp, (<[5 := 2]> {[7 := 1]} : gmap Z Z) !! 7 = Some stamp
                    /\ forall l t, (<[5 := 2]> {[7 := 1]} : gmap Z Z) !! l = Some t ->
                                   stamp <= t)
  /\ (random_displacement map_to_list head (<[5 := 2]> {[7 := 1]}) = Some 7 ->
      is_Some ((<[5 := 2]> {[7 := 1]} : gmap Z Z) !! 7))
  /\ (oldest_displacement map_to_list (<[5 := 2]> {[7 := 1]}) = None
      <-> (<[5 := 2]> {[7 := 1]} : gmap Z Z) = ∅).
Proof.
  assert (Hperm : forall m : gmap Z Z, map_to_list m ≡ₚ map_to_list m)
    by (intros m; reflexivity).
  assert (Hhead : forall (l : list Z) (x : Z), head l = Some x -> x ∈ l).
  { intros [|y l] x; [discriminate|]. intros [= ->]. left. }
  split; [exact Hperm|]. split; [exact Hhead|].
  exact (strategies_evict_residents map_to_list head Hperm Hhead
           (<[5 := 2]> {[7 := 1]}) 7).
Defined.

Lemma no_block_raises_index_error_witness :
  (forall m : gmap Z Z, map_to_list m ≡ₚ map_to_list m)
  /\ FullyAssociativeCache.__init__ 64 32 (oldest_displacement map_to_list)
     = inr example_no_block
  /\ 32 / 64 <= 0
  /\ Cache.run [0; 64; 0] example_no_block = example_no_block
  /\ Cache.get 5 example_no_block = Raise IndexError example_no_block.
Proof.
  assert (Hperm : forall m : gmap Z Z, map_to_list m ≡ₚ map_to_list m)
    by (intros m; reflexivity).
  assert (Hb : 32 / 64 <= 0) by discriminate.
  split; [exact Hperm|]. split; [reflexivity|]. split; [exact Hb|].
  exact (no_block_raises_index_error map_to_list 64 32 example_no_block [0; 64; 0] 5
           Hperm eq_refl Hb).
Defined.

Lemma low_lines_use_set_zero_witness :
  SetAssociativeCache.__init__ 64 256 example_oldest 2 = inr example_sets
  /\ 0 < 2
  /\ 0 <= 128 / 64 < 256 / 2
  /\ SetAssociativeCache.owner (Cache.run [0; 64] example_sets) 128 = Some 0%nat
  /\ forall i, i <> 0%nat ->
       SetAssociativeCache.cache (state_of (Cache.get 128 (Cache.run [0; 64] example_sets)))
         !! i
       = SetAssociativeCache.cache (Cache.run [0; 64] example_sets) !! i.
Proof.
  assert (Hinit : SetAssociativeCache.__init__ 64 256 example_oldest 2 = inr example_sets)
    by (vm_compute; reflexivity).
  assert (Hline : 0 <= 128 / 64 < 256 / 2) by (split; [discriminate|reflexivity]).
  split; [exact Hinit|]. split; [reflexivity|]. split; [exact Hline|].
  exact (low_lines_use_set_zero 64 256 example_oldest 2 example_sets [0; 64] 128
           Hinit eq_refl Hline).
Defined.

Lemma hit_restamps_last_victim_witness :
  SetAssociativeCache.sets_ok example_sets_evicted
  /\ SetAssociativeCache.owner example_sets_evicted 64 = Some 0%nat
  /\ SetAssociativeCache.cache example_sets_evicted !! 0%nat = Some example_inner
  /\ is_Some (FullyAssociativeCache.cache example_inner
                !! (64 / Cache.line_size (SetAssociativeCache.super example_sets_evicted)))
  /\ Cache.history (FullyAssociativeCache.super example_inner)
       !! (64 / Cache.line_size (SetAssociativeCache.super example_sets_evicted)) = Some 2
  /\ Cache.history (SetAssociativeCache.super example_sets_evicted)
       !! (64 / Cache.line_size (SetAssociativeCache.super example_sets_evicted)) = Some 2
  /\ FullyAssociativeCache.last_replaced example_inner = 0
  /\ 0 <> -1
  /\ exists s',
       Cache.get 64 example_sets_evicted = Ret true s'
       /\ Cache.history (SetAssociativeCache.super s')
          = <[0 := Cache.requests (SetAssociativeCache.super example_sets_evicted) + 1]>
              (Cache.history (SetAssociativeCache.super example_sets_evicted))
       /\ Cache.hits (SetAssociativeCache.super s')
          = Cache.hits (SetAssociativeCache.super example_sets_evicted) + 1.
Proof.
  assert (Hinit : SetAssociativeCache.__init__ 64 256 example_oldest 2 = inr example_sets)
    by (vm_compute; reflexivity).
  assert (Hok : SetAssociativeCache.sets_ok example_sets_evicted).
  { apply (@run_valid SetAssociativeCache.t _ sets_lawful).
    apply (init_spec 64 256 example_oldest 2). exact Hinit. }
  assert (Hown : SetAssociativeCache.owner example_sets_evicted 64 = Some 0%nat)
    by (vm_compute; reflexivity).
  assert (Hn : SetAssociativeCache.cache example_sets_evicted !! 0%nat = Some example_inner)
    by (vm_compute; reflexivity).
  assert (Hres : is_Some (FullyAssociativeCache.cache example_inner
                   !! (64 / Cache.line_size (SetAssociativeCache.super example_sets_evicted))))
    by (exists 2; vm_compute; reflexivity).
  assert (Hhi : Cache.history (FullyAssociativeCache.super example_inner)
                  !! (64 / Cache.line_size (SetAssociativeCache.super example_sets_evicted))
                = Some 2) by (vm_compute; reflexivity).
  assert (Hh : Cache.history (SetAssociativeCache.super example_sets_evicted)
                 !! (64 / Cache.line_size (SetAssociativeCache.super example_sets_evicted))
               = Some 2) by (vm_compute; reflexivity).
  assert (Hlr : FullyAssociativeCache.last_replaced example_inner = 0)
    by (vm_compute; reflexivity).
  assert (Hne : 0 <> -1) by discriminate.
  split; [exact Hok|]. split; [exact Hown|]. split; [exact Hn|]. split; [exact Hres|].
  split; [exact Hhi|]. split; [exact Hh|]. split; [exact Hlr|]. split; [exact Hne|].
  exact (hit_restamps_last_victim 64 example_sets_evicted 0 example_inner 2 2 0
           Hok Hown Hn Hres Hhi Hh Hlr Hne).
Defined.

Lemma matrices_back_to_back_witness :
  0 < 4
  /\ Matrix.__init__ 4 2 Memory.__init__ = Ret (Matrix.mk 0 4) (Memory.mk 16)
  /\ Matrix.__init__ 4 2 (Memory.mk 16) = Ret (Matrix.mk 16 4) (Memory.mk 32)
  /\ Matrix.base (Matrix.mk 0 4) = Memory.base Memory.__init__
  /\ Matrix.base (Matrix.mk 16 4) = Matrix.base (Matrix.mk 0 4) + 4 * (2 * 2)
  /\ Memory.base (Memory.mk 32) = Memory.base Memory.__init__ + 2 * (4 * (2 * 2))
  /\ (forall p q, p < q ->
        Matrix.get_addr (Matrix.mk 0 4) p + 4 <= Matrix.get_addr (Matrix.mk 0 4) q)
  /\ (forall p q, p < 2 * 2 -> 0 <= q ->
        Matrix.get_addr (Matrix.mk 0 4) p + 4 <= Matrix.get_addr (Matrix.mk 16 4) q).
Proof.
  split; [reflexivity|]. split; [reflexivity|]. split; [reflexivity|].
  exact (matrices_back_to_back 4 2 Memory.__init__ (Memory.mk 16) (Memory.mk 32)
           (Matrix.mk 0 4) (Matrix.mk 16 4) eq_refl eq_refl eq_refl).
Defined.

End MoreExamples.
